(** * UserModel: the list model of user accounts (src/usermodel.cpp)

    A shallow embedding of the account cache of [UserModel]: the row vector
    [m_users], the hash [m_uidsToRows], the slots connected to the user
    manager daemon's signals and the completion handlers of the asynchronous
    D-Bus calls, together with the error classifier [getErrorType].

    Embedded are the members that write [m_users] and [m_uidsToRows] or
    report on them: placeholder, setPlaceholder, index, setData, createUser,
    removeUser, reset, onUserAdded, onUserModified, onUserRemoved,
    onCurrentUserChangeFailed, userAddFinished, userModifyFinished and
    userRemoveFinished. Rows are [int]s and uids [uint]s in the source; no
    computation on them leaves its range for a vector that fits in memory. *)

From Stdlib Require Import ZArith String List Bool.
From stdpp Require Import base option list gmap strings.

Open Scope Z_scope.

(** ** Declarations that live outside usermodel.cpp *)

(** The enumerators of usermodel.h (roles and [UserModel::ErrorType]),
    [QDBusError::Other] and the error names of sailfishusermanagerinterface.h
    are used by the translation unit but declared elsewhere; they are taken
    as parameters. *)
Class Declarations := {
  NameRole : Z;
  QDBusError_Other : Z;
  Failure : Z;
  OtherError : Z;
  Busy : Z;
  HomeCreateFailed : Z;
  HomeRemoveFailed : Z;
  GroupCreateFailed : Z;
  UserAddFailed : Z;
  UserModifyFailed : Z;
  UserRemoveFailed : Z;
  GetUidFailed : Z;
  UserNotFound : Z;
  AddToGroupFailed : Z;
  RemoveFromGroupFailed : Z;
  SailfishUserManagerErrorBusy : string;
  SailfishUserManagerErrorHomeCreateFailed : string;
  SailfishUserManagerErrorHomeRemoveFailed : string;
  SailfishUserManagerErrorGroupCreateFailed : string;
  SailfishUserManagerErrorUserAddFailed : string;
  SailfishUserManagerErrorUserModifyFailed : string;
  SailfishUserManagerErrorUserRemoveFailed : string;
  SailfishUserManagerErrorGetUidFailed : string;
  SailfishUserManagerErrorUserNotFound : string;
  SailfishUserManagerErrorAddToGroupFailed : string;
  SailfishUserManagerErrorRemoveFromGroupFailed : string
}.

(** ** The account record *)

(** What the system identity lookup knows about one uid. *)
Record Identity := {
  id_username : string;
  id_name : string;
  id_type : Z
}.

(** The system identity lookup at one moment: [None] when the uid is unknown
    to the operating system. *)
Definition OS := N → option Identity.

(** Modelled from the spec: class UserInfo (userinfo.h, userinfo.cpp) is not
    part of the sources at hand. The record has the fields of the spec's
    Account Record: uid, username, name, type, current flag and validity. *)
Record UserInfo := {
  uid : N;
  username : string;
  name : string;
  type : Z;
  current : bool;
  isValid : bool
}.

(** Modelled from the spec: the uid of the placeholder is unassigned; the
    customary [(uid_t)-1] stands for it. *)
Definition InvalidId : N := 4294967295.

(** Modelled from the spec: [UserInfo::placeholder()], the record of the
    placeholder row: uid unassigned, local only, invalid. *)
Definition UserInfo_placeholder : UserInfo :=
  {| uid := InvalidId; username := EmptyString; name := EmptyString; type := 0;
     current := false; isValid := false |}.

(** Modelled from the spec: [UserInfo(uid)], a record constructed from the
    uid by querying the operating system for the authoritative fields; it is
    valid exactly when the lookup succeeds. *)
Definition UserInfo_of_uid (os : OS) (u : N) : UserInfo :=
  match os u with
  | Some i =>
      {| uid := u; username := id_username i; name := id_name i;
         type := id_type i; current := false; isValid := true |}
  | None => UserInfo_placeholder
  end.

(** Modelled from the spec: [UserInfo::setName], the local edit of the name
    field. *)
Definition setName (n : string) (x : UserInfo) : UserInfo :=
  {| uid := uid x; username := username x; name := n; type := type x;
     current := current x; isValid := isValid x |}.

(** Modelled from the spec: [UserInfo::reset], which restores the locally
    mutable fields from the system identity lookup and discards a local
    edit; on the placeholder it clears the name. The identity of the row
    (uid, validity) is not touched. *)
Definition UserInfo_reset (os : OS) (x : UserInfo) : UserInfo :=
  match (if isValid x then os (uid x) else None) with
  | Some i =>
      {| uid := uid x; username := id_username i; name := id_name i;
         type := type x; current := current x; isValid := isValid x |}
  | None =>
      {| uid := uid x; username := EmptyString; name := EmptyString; type := type x;
         current := current x; isValid := isValid x |}
  end.

(** ** Qt values *)

Record QDBusError := {
  error_type : Z;
  error_name : string
}.

(** [QDBusPendingReply<T>]: an error or the value of the reply. *)
Inductive QDBusPendingReply (T : Type) :=
| reply_error (e : QDBusError)
| reply_value (v : T).
Arguments reply_error {T} e.
Arguments reply_value {T} v.

(** The values a QVariant handed to [setData] may hold, as far as
    [toString] tells them apart. *)
Inductive QVariant :=
| QVariant_invalid
| QVariant_string (s : string)
| QVariant_bool (b : bool).

Definition toString (v : QVariant) : string :=
  match v with
  | QVariant_invalid => EmptyString
  | QVariant_string s => s
  | QVariant_bool true => "true"
  | QVariant_bool false => "false"
  end.

Record QModelIndex := {
  row : Z;
  column : Z
}.

(** [QModelIndex()], the invalid index. *)
Definition QModelIndex_invalid : QModelIndex := {| row := -1; column := -1 |}.

(** Arguments of an asynchronous D-Bus call. *)
Inductive Arg :=
| arg_uint (n : N)
| arg_string (s : string)
| arg_stringlist (l : list string).

(** The slot a [QDBusPendingCallWatcher] is connected to, with the row bound
    at the time of the call. *)
Inductive Slot :=
| slot_userAddFinished
| slot_userModifyFinished (row : Z)
| slot_userRemoveFinished (row : Z).

Record AsyncCall := {
  call_method : string;
  call_args : list Arg;
  call_finished : Slot
}.

(** What the model tells its observers: the row bookkeeping of
    QAbstractListModel and the signals of UserModel. *)
Inductive Signal :=
| beginInsertRows (first last : Z)
| endInsertRows
| beginRemoveRows (first last : Z)
| endRemoveRows
| placeholderChanged
| dataChanged (topLeft bottomRight : QModelIndex) (roles : list Z)
| userAddFailed (error : Z)
| userModifyFailed (row : Z) (error : Z)
| userRemoveFailed (row : Z) (error : Z)
| setCurrentUserFailed (row : Z) (error : Z).

(** ** QVector and QHash *)

Section QVector.
Context {A : Type}.

Definition count (l : list A) : Z := Z.of_nat (length l).

Definition in_range (i : Z) (l : list A) : bool :=
  (0 <=? i) && (i <? count l).

(** [at(i)] and [operator[](i)] assert that [i] is in range. *)
Definition QVector_at (i : Z) (l : list A) : option A :=
  if in_range i l then l !! Z.to_nat i else None.

(** [insert(i, x)] asserts [0 <= i <= size]. *)
Definition QVector_insert (i : Z) (x : A) (l : list A) : option (list A) :=
  if (0 <=? i) && (i <=? count l)
  then Some (take (Z.to_nat i) l ++ x :: drop (Z.to_nat i) l)
  else None.

(** [remove(i)] asserts that [i] is in range. *)
Definition QVector_remove (i : Z) (l : list A) : option (list A) :=
  if in_range i l then Some (delete (Z.to_nat i) l) else None.

(** Writing through the reference [operator[](i)] returns. *)
Definition QVector_set (i : Z) (x : A) (l : list A) : option (list A) :=
  if in_range i l then Some (<[Z.to_nat i := x]> l) else None.
End QVector.

(** [QHash::contains]. *)
Definition QHash_contains (k : N) (m : gmap N Z) : bool :=
  match m !! k with Some _ => true | None => false end.

(** [QHash::value(k)], a default-constructed value for an absent key. *)
Definition QHash_value (k : N) (m : gmap N Z) : Z := default 0 (m !! k).

(** ** The model object *)

Record UserModel := {
  m_users : list UserInfo;
  m_uidsToRows : gmap N Z;
  m_dBusInterface : bool;
  asyncCalls : list AsyncCall;
  emitted : list Signal
}.

(** Member functions run on the model object and either finish with a
    result and the new object, or stop at a failed container assertion. *)
Definition M (A : Type) : Type := UserModel → option (A * UserModel).

#[global] Instance M_ret : MRet M := λ A a s, Some (a, s).
#[global] Instance M_bind : MBind M := λ A B f m s,
  match m s with
  | Some (a, s') => f a s'
  | None => None
  end.

Definition get_users : M (list UserInfo) := λ s, Some (m_users s, s).
Definition get_uidsToRows : M (gmap N Z) := λ s, Some (m_uidsToRows s, s).

(** Writes to the members of the object. *)
Definition with_users (l : list UserInfo) (s : UserModel) : UserModel :=
  {| m_users := l; m_uidsToRows := m_uidsToRows s;
     m_dBusInterface := m_dBusInterface s;
     asyncCalls := asyncCalls s; emitted := emitted s |}.

Definition with_uidsToRows (m : gmap N Z) (s : UserModel) : UserModel :=
  {| m_users := m_users s; m_uidsToRows := m;
     m_dBusInterface := m_dBusInterface s;
     asyncCalls := asyncCalls s; emitted := emitted s |}.

Definition with_interface (s : UserModel) : UserModel :=
  {| m_users := m_users s; m_uidsToRows := m_uidsToRows s;
     m_dBusInterface := true;
     asyncCalls := asyncCalls s; emitted := emitted s |}.

Definition with_call (c : AsyncCall) (s : UserModel) : UserModel :=
  {| m_users := m_users s; m_uidsToRows := m_uidsToRows s;
     m_dBusInterface := m_dBusInterface s;
     asyncCalls := asyncCalls s ++ [c]; emitted := emitted s |}.

Definition with_signal (e : Signal) (s : UserModel) : UserModel :=
  {| m_users := m_users s; m_uidsToRows := m_uidsToRows s;
     m_dBusInterface := m_dBusInterface s;
     asyncCalls := asyncCalls s; emitted := emitted s ++ [e] |}.

Definition set_users (l : list UserInfo) : M unit := λ s,
  Some (tt, with_users l s).

Definition set_uidsToRows (m : gmap N Z) : M unit := λ s,
  Some (tt, with_uidsToRows m s).

Definition emit (e : Signal) : M unit := λ s,
  Some (tt, with_signal e s).

(** A container operation whose assertion may fail. *)
Definition checked {A : Type} (o : option A) : M A := λ s,
  match o with
  | Some a => Some (a, s)
  | None => None
  end.

(** [createInterface]: if there is no proxy one is created; in either case
    there is one afterwards. *)
Definition createInterface : M unit := λ s,
  Some (tt, with_interface s).

(** [m_dBusInterface->asyncCall(method, args)] with a watcher whose
    [finished] signal is connected to [k]. *)
Definition asyncCall (method : string) (args : list Arg) (k : Slot) : M unit := λ s,
  Some (tt, with_call {| call_method := method; call_args := args;
                         call_finished := k |} s).

(** The body of the loop of [onUserRemoved] over the values of the hash:
    [if (iter.value() > row) iter.value() -= 1]. *)
Definition renumber (r v : Z) : Z := if r <? v then v - 1 else v.

(** ** Member functions of UserModel *)

Section Members.
Context `{Declarations}.

(** The initializer list of [errorTypeMap]; QHash inserts the pairs in
    order, a later pair replacing an earlier one with the same key. *)
Definition errorTypeList : list (string * Z) :=
  [ (SailfishUserManagerErrorBusy, Busy);
    (SailfishUserManagerErrorHomeCreateFailed, HomeCreateFailed);
    (SailfishUserManagerErrorHomeRemoveFailed, HomeRemoveFailed);
    (SailfishUserManagerErrorGroupCreateFailed, GroupCreateFailed);
    (SailfishUserManagerErrorUserAddFailed, UserAddFailed);
    (SailfishUserManagerErrorUserModifyFailed, UserModifyFailed);
    (SailfishUserManagerErrorUserRemoveFailed, UserRemoveFailed);
    (SailfishUserManagerErrorGetUidFailed, GetUidFailed);
    (SailfishUserManagerErrorUserNotFound, UserNotFound);
    (SailfishUserManagerErrorAddToGroupFailed, AddToGroupFailed);
    (SailfishUserManagerErrorRemoveFromGroupFailed, RemoveFromGroupFailed) ].

(** [QHash::insert] of one pair of the list. *)
Definition register (m : gmap string Z) (kv : string * Z) : gmap string Z :=
  <[kv.1 := kv.2]> m.

Definition errorTypeMap : gmap string Z :=
  foldl register ∅ errorTypeList.

Definition getErrorType (error : QDBusError) : Z :=
  if negb (error_type error =? QDBusError_Other)
  then error_type error
  else default OtherError (errorTypeMap !! error_name error).

(** Placeholder is always last and the only item that can be invalid. *)
Definition placeholder : M bool :=
  users ← get_users;
  if count users =? 0 then mret false
  else u ← checked (last users); mret (negb (isValid u)).

Definition setPlaceholder (value : bool) : M unit :=
  p ← placeholder;
  if Bool.eqb p value then mret tt
  else
    (if value then
       users ← get_users;
       let r := count users in
       emit (beginInsertRows r r);;
       set_users (users ++ [UserInfo_placeholder]);;
       emit endInsertRows
     else
       users ← get_users;
       let r := count users - 1 in
       emit (beginRemoveRows r r);;
       users' ← checked (QVector_remove r users);
       set_users users';;
       emit endRemoveRows);;
    emit placeholderChanged.

Definition index (r c : Z) : M QModelIndex :=
  users ← get_users;
  if (r <? 0) || (count users <=? r) || negb (c =? 0)
  then mret QModelIndex_invalid
  else mret {| row := r; column := 0 |}.

Definition setData (idx : QModelIndex) (value : QVariant) (role : Z) : M bool :=
  users ← get_users;
  if (row idx <? 0) || (count users <=? row idx) || negb (column idx =? 0)
  then mret false
  else
    user ← checked (QVector_at (row idx) users);
    if role =? NameRole then
      let newName := toString value in
      if String.eqb newName EmptyString || String.eqb newName (name user)
      then mret false
      else
        let user' := setName newName user in
        users' ← checked (QVector_set (row idx) user' users);
        set_users users';;
        (if isValid user' then
           createInterface;;
           asyncCall "modifyUser" [arg_uint (uid user'); arg_string newName]
                     (slot_userModifyFinished (row idx))
         else mret tt);;
        emit (dataChanged idx idx [role]);;
        mret true
    else mret false.

(** Creates new user from a placeholder user. Does nothing if there is no
    placeholder or user's name is not set. *)
Definition createUser : M unit :=
  p ← placeholder;
  if negb p then mret tt
  else
    users ← get_users;
    user ← checked (last users);
    if String.eqb (name user) EmptyString then mret tt
    else
      createInterface;;
      asyncCall "addUser" [arg_string (name user)] slot_userAddFinished.

Definition removeUser (r : Z) : M unit :=
  users ← get_users;
  if (r <? 0) || (count users <=? r) then mret tt
  else
    user ← checked (QVector_at r users);
    if negb (isValid user) then mret tt
    else
      createInterface;;
      asyncCall "removeUser" [arg_uint (uid user)] (slot_userRemoveFinished r).

Definition reset (os : OS) (r : Z) : M unit :=
  users ← get_users;
  if (r <? 0) || (count users <=? r) then mret tt
  else
    user ← checked (QVector_at r users);
    users' ← checked (QVector_set r (UserInfo_reset os user) users);
    set_users users';;
    idx ← index r 0;
    emit (dataChanged idx idx []).

(** Slot of the daemon's userAdded signal; [os] is the system identity
    lookup at the time the slot runs. *)
Definition onUserAdded (os : OS) (entry_uid : N) : M unit :=
  m ← get_uidsToRows;
  if QHash_contains entry_uid m then mret tt
  else
    let user := UserInfo_of_uid os entry_uid in
    if isValid user then
      p ← placeholder;
      users ← get_users;
      let r := if (p : bool) then count users - 1 else count users in
      emit (beginInsertRows r r);;
      users' ← checked (QVector_insert r user users);
      set_users users';;
      set_uidsToRows (<[entry_uid := r]> m);;
      emit endInsertRows
    else mret tt.

Definition onUserModified (u : N) (newName : string) : M unit :=
  m ← get_uidsToRows;
  if negb (QHash_contains u m) then mret tt
  else
    let r := QHash_value u m in
    users ← get_users;
    user ← checked (QVector_at r users);
    if negb (String.eqb (name user) newName) then
      users' ← checked (QVector_set r (setName newName user) users);
      set_users users';;
      idx ← index r 0;
      emit (dataChanged idx idx [NameRole])
    else mret tt.

Definition onUserRemoved (u : N) : M unit :=
  m ← get_uidsToRows;
  if negb (QHash_contains u m) then mret tt
  else
    let r := QHash_value u m in
    emit (beginRemoveRows r r);;
    users ← get_users;
    users' ← checked (QVector_remove r users);
    set_users users';;
    (* It is slightly costly to remove users since some row numbers may
       need to be updated *)
    set_uidsToRows (renumber r <$> delete u m);;
    emit endRemoveRows.

Definition onCurrentUserChangeFailed (u : N) : M unit :=
  m ← get_uidsToRows;
  if QHash_contains u m
  then emit (setCurrentUserFailed (QHash_value u m) Failure)
  else mret tt.

Definition userAddFinished (os : OS) (reply : QDBusPendingReply N) : M unit :=
  match reply with
  | reply_error error => emit (userAddFailed (getErrorType error))
  | reply_value u =>
      m ← get_uidsToRows;
      (* Check that this was not just added to the list by onUserAdded *)
      (if negb (QHash_contains u m) then
         (* Add to the end *)
         users ← get_users;
         let r := count users - 1 in
         emit (beginInsertRows r r);;
         users' ← checked (QVector_insert r (UserInfo_of_uid os u) users);
         set_users users';;
         set_uidsToRows (<[u := r]> m);;
         emit endInsertRows
       else mret tt);;
      (* Reset placeholder *)
      users ← get_users;
      reset os (count users - 1)
  end.

Definition userModifyFinished (os : OS) (reply : QDBusPendingReply unit) (r : Z) : M unit :=
  match reply with
  | reply_error error =>
      emit (userModifyFailed r (getErrorType error));;
      reset os r
  | reply_value _ => mret tt (* data was changed already *)
  end.

Definition userRemoveFinished (reply : QDBusPendingReply unit) (r : Z) : M unit :=
  match reply with
  | reply_error error => emit (userRemoveFailed r (getErrorType error))
  | reply_value _ => mret tt (* waiting for signal to alter data *)
  end.

End Members.

(** ** Scenario data *)

(** One assignment of the outside declarations, used to run the model on
    concrete scenarios. *)
Definition sample_declarations : Declarations := {|
  NameRole := 258;
  QDBusError_Other := 1;
  Failure := 2;
  OtherError := 1;
  Busy := 100;
  HomeCreateFailed := 101;
  HomeRemoveFailed := 102;
  GroupCreateFailed := 103;
  UserAddFailed := 104;
  UserModifyFailed := 105;
  UserRemoveFailed := 106;
  GetUidFailed := 107;
  UserNotFound := 108;
  AddToGroupFailed := 109;
  RemoveFromGroupFailed := 110;
  SailfishUserManagerErrorBusy := "Busy";
  SailfishUserManagerErrorHomeCreateFailed := "HomeCreateFailed";
  SailfishUserManagerErrorHomeRemoveFailed := "HomeRemoveFailed";
  SailfishUserManagerErrorGroupCreateFailed := "GroupCreateFailed";
  SailfishUserManagerErrorUserAddFailed := "UserAddFailed";
  SailfishUserManagerErrorUserModifyFailed := "UserModifyFailed";
  SailfishUserManagerErrorUserRemoveFailed := "UserRemoveFailed";
  SailfishUserManagerErrorGetUidFailed := "GetUidFailed";
  SailfishUserManagerErrorUserNotFound := "UserNotFound";
  SailfishUserManagerErrorAddToGroupFailed := "AddToGroupFailed";
  SailfishUserManagerErrorRemoveFromGroupFailed := "RemoveFromGroupFailed"
|}.

(** A committed user as the identity lookup reports it. *)
Definition committed (u : N) (n : string) : UserInfo :=
  {| uid := u; username := n; name := n; type := 0; current := false;
     isValid := true |}.

(** An identity lookup that knows alice (1000), bob (1001) and carol (1002). *)
Definition sample_os : OS := λ u,
  if (u =? 1000)%N then Some {| id_username := "alice"; id_name := "alice"; id_type := 0 |}
  else if (u =? 1001)%N then Some {| id_username := "bob"; id_name := "bob"; id_type := 0 |}
  else if (u =? 1002)%N then Some {| id_username := "carol"; id_name := "carol"; id_type := 0 |}
  else None.

Definition model_of (users : list UserInfo) (rows : gmap N Z) : UserModel :=
  {| m_users := users; m_uidsToRows := rows; m_dBusInterface := false;
     asyncCalls := []; emitted := [] |}.

(** The cache after start-up with alice and bob in the users group. *)
Definition two_users : UserModel :=
  model_of [committed 1000 "alice"; committed 1001 "bob"]
           (<[1001%N := 1]> (<[1000%N := 0]> ∅)).

(** The cache with alice, bob and carol. *)
Definition three_users : UserModel :=
  model_of [committed 1000 "alice"; committed 1001 "bob"; committed 1002 "carol"]
           (<[1002%N := 2]> (<[1001%N := 1]> (<[1000%N := 0]> ∅))).

(** Alice, bob and a placeholder whose name was set to carol: the cache
    at the time createUser is called. *)
Definition two_users_and_carol : UserModel :=
  model_of [committed 1000 "alice"; committed 1001 "bob";
            setName "carol" UserInfo_placeholder]
           (<[1001%N := 1]> (<[1000%N := 0]> ∅)).

(** ** Broadcasts of the daemon and the invariants of the cache *)

(** The two broadcasts that insert and remove rows. [userAdded] carries
    the system identity lookup as it is when the slot runs. *)
Inductive Broadcast :=
| userAdded (os : OS) (entry_uid : N)
| userRemoved (u : N).

Definition deliver (b : Broadcast) : M unit :=
  match b with
  | userAdded os entry_uid => onUserAdded os entry_uid
  | userRemoved u => onUserRemoved u
  end.

(** The model objects after each broadcast of a sequence, in order. *)
Fixpoint deliver_all (bs : list Broadcast) (s : UserModel) : option (list UserModel) :=
  match bs with
  | [] => Some []
  | b :: bs' =>
      match deliver b s with
      | Some (_, s') =>
          match deliver_all bs' s' with
          | Some tr => Some (s' :: tr)
          | None => None
          end
      | None => None
      end
  end.

(** [m] is the inverse of [l] on its valid rows: uid [u] is mapped to [r]
    exactly when row [r] exists, is valid and has uid [u]. An invalid row
    has no entry. *)
Definition inverse (l : list UserInfo) (m : gmap N Z) : Prop :=
  ∀ u r, m !! u = Some r ↔
         0 ≤ r ∧ ∃ x, l !! Z.to_nat r = Some x ∧ isValid x = true ∧ uid x = u.

Definition index_inverse (s : UserModel) : Prop :=
  inverse (m_users s) (m_uidsToRows s).

(** What [placeholder()] computes from the rows. *)
Definition trailing_invalid (l : list UserInfo) : bool :=
  match last l with
  | Some x => negb (isValid x)
  | None => false
  end.

(** Where [onUserAdded] inserts. *)
Definition insert_row (l : list UserInfo) : Z :=
  if trailing_invalid l then count l - 1 else count l.

(** The number of invalid rows. *)
Definition invalid_rows (l : list UserInfo) : nat :=
  length (filter (λ x, isValid x = false) l).

(** At most one row is invalid, and an invalid row is the last one. *)
Definition placeholder_last (l : list UserInfo) : Prop :=
  ∀ i x, l !! i = Some x → isValid x = false → S i = length l.

(** The operations that may follow each other on the cache: the
    placeholder toggle, createUser, the reply to addUser and the slots of
    the daemon's broadcasts. *)
Inductive Operation :=
| op_setPlaceholder (value : bool)
| op_createUser
| op_userAddFinished (os : OS) (reply : QDBusPendingReply N)
| op_onUserAdded (os : OS) (entry_uid : N)
| op_onUserModified (u : N) (newName : string)
| op_onUserRemoved (u : N)
| op_onCurrentUserChangeFailed (u : N).

Definition perform `{Declarations} (op : Operation) : M unit :=
  match op with
  | op_setPlaceholder value => setPlaceholder value
  | op_createUser => createUser
  | op_userAddFinished os reply => userAddFinished os reply
  | op_onUserAdded os entry_uid => onUserAdded os entry_uid
  | op_onUserModified u newName => onUserModified u newName
  | op_onUserRemoved u => onUserRemoved u
  | op_onCurrentUserChangeFailed u => onCurrentUserChangeFailed u
  end.

(** The identity lookup knows the uid a successful addUser reply carries. *)
Definition reply_uid_known (op : Operation) : Prop :=
  match op with
  | op_userAddFinished os (reply_value u) => is_Some (os u)
  | _ => True
  end.

(** ** Construction of the model *)

(** Modelled from the spec: [UserInfo(QString username)], the record of the
    account with that user name; [getpwnam] gives the uid of a name the
    system knows, and the record is the one of that uid. *)
Definition UserInfo_of_name (getpwnam : string → option N) (os : OS)
    (n : string) : UserInfo :=
  match getpwnam n with
  | Some u => UserInfo_of_uid os u
  | None => UserInfo_placeholder
  end.

(** One round of the constructor's loop over [grp->gr_mem]. *)
Definition append_user (user : UserInfo) (s : UserModel) : UserModel :=
  if isValid user then (* Skip invalid users here *)
    let users := m_users s ++ [user] in
    with_uidsToRows (<[uid user := count users - 1]> (m_uidsToRows s))
                    (with_users users s)
  else s.

(** [UserModel::UserModel]: [registered] tells whether the daemon's service
    is registered on the bus, [grp] is what [getgrnam("users")] returns,
    which the constructor dereferences without a test. *)
Definition UserModel_new (registered : bool) (getpwnam : string → option N)
    (os : OS) (grp : option (list string)) : option UserModel :=
  match grp with
  | None => None
  | Some gr_mem =>
      Some (foldl (λ s n, append_user (UserInfo_of_name getpwnam os n) s)
                  {| m_users := []; m_uidsToRows := ∅;
                     m_dBusInterface := registered;
                     asyncCalls := []; emitted := [] |}
                  gr_mem)
  end.

(** ** Properties of whole model objects *)

(** [l'] has the rows of [l] in the same places, each with the uid and the
    validity it had. *)
Definition rows_edited (l l' : list UserInfo) : Prop :=
  length l' = length l
  ∧ ∀ i x, l !! i = Some x →
      ∃ y, l' !! i = Some y ∧ uid y = uid x ∧ isValid y = isValid x.

(** [s'] has the uid index of [s] and its rows up to edits of their local
    fields. *)
Definition same_rows (s s' : UserModel) : Prop :=
  m_uidsToRows s' = m_uidsToRows s ∧ rows_edited (m_users s) (m_users s').

(** The cache is consistent: the index is the inverse of the rows, and an
    invalid row is single and last. *)
Definition consistent (s : UserModel) : Prop :=
  index_inverse s ∧ placeholder_last (m_users s).

(** Everything that can happen to the model: the operations above, edits
    of a field, removal requests and the replies to modifyUser and
    removeUser. *)
Inductive Action :=
| act_operation (op : Operation)
| act_setData (idx : QModelIndex) (value : QVariant) (role : Z)
| act_removeUser (r : Z)
| act_userModifyFinished (os : OS) (reply : QDBusPendingReply unit) (r : Z)
| act_userRemoveFinished (reply : QDBusPendingReply unit) (r : Z).

Definition run_action `{Declarations} (a : Action) : M unit :=
  match a with
  | act_operation op => perform op
  | act_setData idx value role => setData idx value role ;; mret tt
  | act_removeUser r => removeUser r
  | act_userModifyFinished os reply r => userModifyFinished os reply r
  | act_userRemoveFinished reply r => userRemoveFinished reply r
  end.

(** A success reply to addUser is in time when its uid is already tracked,
    or the placeholder is still the last row and the identity lookup knows
    the uid. *)
Definition reply_in_time (a : Action) (s : UserModel) : Prop :=
  match a with
  | act_operation (op_userAddFinished os (reply_value u)) =>
      is_Some (m_uidsToRows s !! u)
      ∨ (trailing_invalid (m_users s) = true ∧ is_Some (os u))
  | _ => True
  end.

(** The model after a sequence of actions, when every add-user reply in it
    is in time. *)
Fixpoint replies_in_time `{Declarations} (acts : list Action) (s : UserModel) : Prop :=
  match acts with
  | [] => True
  | a :: acts' =>
      reply_in_time a s
      ∧ ∀ s', run_action a s = Some (tt, s') → replies_in_time acts' s'
  end.

Fixpoint run_actions `{Declarations} (acts : list Action) (s : UserModel) : option UserModel :=
  match acts with
  | [] => Some s
  | a :: acts' =>
      match run_action a s with
      | Some (_, s') => run_actions acts' s'
      | None => None
      end
  end.

(** The actions that neither insert nor remove a row: edits of a field,
    the requests createUser and removeUser, the replies to modifyUser and
    removeUser, the error reply to addUser and the currentUserChangeFailed
    broadcast. *)
Definition local_action (a : Action) : Prop :=
  match a with
  | act_setData _ _ _ => True
  | act_removeUser _ => True
  | act_userModifyFinished _ _ _ => True
  | act_userRemoveFinished _ _ => True
  | act_operation op_createUser => True
  | act_operation (op_onCurrentUserChangeFailed _) => True
  | act_operation (op_userAddFinished _ (reply_error _)) => True
  | act_operation _ => False
  end.

(** The model after the record of [u] went in before the last row. *)
Definition inserted_before_last (os : OS) (u : N) (l0 : list UserInfo)
    (z : UserInfo) (s : UserModel) : UserModel :=
  with_signal endInsertRows
    (with_uidsToRows (<[u := Z.of_nat (length l0)]> (m_uidsToRows s))
       (with_users (l0 ++ [UserInfo_of_uid os u; z])
          (with_signal (beginInsertRows (Z.of_nat (length l0))
                                        (Z.of_nat (length l0))) s))).

(** ** Running member functions *)

Ltac unfold_M :=
  unfold mbind, M_bind, mret, M_ret, get_users, get_uidsToRows, set_users,
    set_uidsToRows, emit, checked, createInterface, asyncCall in *.

Lemma count_nonneg {A} (l : list A) : 0 ≤ count l.
Proof. unfold count. lia. Qed.

Lemma QVector_at_Some {A} (i : Z) (l : list A) :
  0 ≤ i < count l → ∃ x, QVector_at i l = Some x ∧ l !! Z.to_nat i = Some x.
Proof.
  intros Hi. unfold QVector_at, in_range, count in *.
  destruct (lookup_lt_is_Some_2 l (Z.to_nat i)) as [x Hx]; [lia|].
  exists x. split; [|done].
  replace (0 <=? i) with true by (symmetry; apply Z.leb_le; lia).
  replace (i <? Z.of_nat (length l)) with true by (symmetry; apply Z.ltb_lt; lia).
  done.
Qed.

Lemma out_of_range_false (r n : Z) :
  0 ≤ r < n → (r <? 0) || (n <=? r) = false.
Proof.
  intros Hr. apply orb_false_iff. split; [apply Z.ltb_ge | apply Z.leb_gt]; lia.
Qed.

Lemma out_of_range_true (r n : Z) :
  r < 0 ∨ n ≤ r → (r <? 0) || (n <=? r) = true.
Proof.
  intros [Hr|Hr]; apply orb_true_iff; [left; apply Z.ltb_lt | right; apply Z.leb_le]; lia.
Qed.

(** ** The error classifier *)

Section ErrorClassifier.
Context `{Declarations}.

Lemma foldl_register_absent (l : list (string * Z)) (m : gmap string Z) (k : string) :
  k ∉ l.*1 → foldl register m l !! k = m !! k.
Proof.
  revert m. induction l as [|[k' v'] l IH]; intros m Hk; [done|].
  simpl in *. apply not_elem_of_cons in Hk as [Hne Hk].
  rewrite IH by done. unfold register. simpl. by rewrite lookup_insert_ne.
Qed.

Lemma foldl_register_present (l : list (string * Z)) (m : gmap string Z) k v :
  NoDup l.*1 → (k, v) ∈ l → foldl register m l !! k = Some v.
Proof.
  revert m. induction l as [|[k' v'] l IH]; intros m Hnd Hin.
  - by apply elem_of_nil in Hin.
  - simpl in *. apply NoDup_cons in Hnd as [Hk' Hnd].
    apply elem_of_cons in Hin as [Heq|Hin].
    + inversion Heq; subst. rewrite foldl_register_absent by done.
      unfold register. simpl. apply lookup_insert_eq.
    + by apply IH.
Qed.

(** C9. An error of transport type Other whose name is one of the eleven
    daemon error names (pairwise different) is mapped to the enumerator of
    that name: Busy, HomeCreateFailed, HomeRemoveFailed, GroupCreateFailed,
    UserAddFailed, UserModifyFailed, UserRemoveFailed, GetUidFailed,
    UserNotFound, AddToGroupFailed, RemoveFromGroupFailed; with any other
    name it is mapped to OtherError; an error of any other transport type
    is returned as that type's code. *)
Theorem getErrorType_classifies :
  NoDup [SailfishUserManagerErrorBusy;
         SailfishUserManagerErrorHomeCreateFailed;
         SailfishUserManagerErrorHomeRemoveFailed;
         SailfishUserManagerErrorGroupCreateFailed;
         SailfishUserManagerErrorUserAddFailed;
         SailfishUserManagerErrorUserModifyFailed;
         SailfishUserManagerErrorUserRemoveFailed;
         SailfishUserManagerErrorGetUidFailed;
         SailfishUserManagerErrorUserNotFound;
         SailfishUserManagerErrorAddToGroupFailed;
         SailfishUserManagerErrorRemoveFromGroupFailed] →
  let other (k : string) :=
    getErrorType {| error_type := QDBusError_Other; error_name := k |} in
  other SailfishUserManagerErrorBusy = Busy
  ∧ other SailfishUserManagerErrorHomeCreateFailed = HomeCreateFailed
  ∧ other SailfishUserManagerErrorHomeRemoveFailed = HomeRemoveFailed
  ∧ other SailfishUserManagerErrorGroupCreateFailed = GroupCreateFailed
  ∧ other SailfishUserManagerErrorUserAddFailed = UserAddFailed
  ∧ other SailfishUserManagerErrorUserModifyFailed = UserModifyFailed
  ∧ other SailfishUserManagerErrorUserRemoveFailed = UserRemoveFailed
  ∧ other SailfishUserManagerErrorGetUidFailed = GetUidFailed
  ∧ other SailfishUserManagerErrorUserNotFound = UserNotFound
  ∧ other SailfishUserManagerErrorAddToGroupFailed = AddToGroupFailed
  ∧ other SailfishUserManagerErrorRemoveFromGroupFailed = RemoveFromGroupFailed
  ∧ (∀ k, k ∉ [SailfishUserManagerErrorBusy;
         SailfishUserManagerErrorHomeCreateFailed;
         SailfishUserManagerErrorHomeRemoveFailed;
         SailfishUserManagerErrorGroupCreateFailed;
         SailfishUserManagerErrorUserAddFailed;
         SailfishUserManagerErrorUserModifyFailed;
         SailfishUserManagerErrorUserRemoveFailed;
         SailfishUserManagerErrorGetUidFailed;
         SailfishUserManagerErrorUserNotFound;
         SailfishUserManagerErrorAddToGroupFailed;
         SailfishUserManagerErrorRemoveFromGroupFailed] →
       other k = OtherError)
  ∧ (∀ e, error_type e ≠ QDBusError_Other → getErrorType e = error_type e).
Proof.
  intros Hnd other.
  assert (Hreg : ∀ k v, (k, v) ∈ errorTypeList → other k = v).
  { intros k v Hin. unfold other, getErrorType, errorTypeMap.
    cbn [error_type error_name]. rewrite Z.eqb_refl. cbn [negb].
    by rewrite (foldl_register_present _ _ k v). }
  repeat (split;
    [apply Hreg; unfold errorTypeList;
     solve [repeat (apply list_elem_of_here || apply list_elem_of_further)]|]).
  split.
  - intros k Hk. unfold other, getErrorType, errorTypeMap.
    cbn [error_type error_name]. rewrite Z.eqb_refl. cbn [negb].
    by rewrite foldl_register_absent.
  - intros e He. unfold getErrorType. apply Z.eqb_neq in He. by rewrite He.
Qed.
End ErrorClassifier.

Lemma getErrorType_classifies_witness :
  let other (k : string) :=
    @getErrorType sample_declarations {| error_type := 1; error_name := k |} in
  other "Busy" = 100 ∧ other "HomeCreateFailed" = 101
  ∧ other "HomeRemoveFailed" = 102 ∧ other "GroupCreateFailed" = 103
  ∧ other "UserAddFailed" = 104 ∧ other "UserModifyFailed" = 105
  ∧ other "UserRemoveFailed" = 106 ∧ other "GetUidFailed" = 107
  ∧ other "UserNotFound" = 108 ∧ other "AddToGroupFailed" = 109
  ∧ other "RemoveFromGroupFailed" = 110
  ∧ other "org.freedesktop.DBus.Error.Unknown" = 1
  ∧ @getErrorType sample_declarations
      {| error_type := 4; error_name := "UserRemoveFailed" |} = 4.
Proof.
  intros other.
  assert (Hnd : NoDup ["Busy"; "HomeCreateFailed"; "HomeRemoveFailed";
                       "GroupCreateFailed"; "UserAddFailed"; "UserModifyFailed";
                       "UserRemoveFailed"; "GetUidFailed"; "UserNotFound";
                       "AddToGroupFailed"; "RemoveFromGroupFailed"])
    by (apply (bool_decide_unpack _); vm_compute; reflexivity).
  destruct (@getErrorType_classifies sample_declarations Hnd)
    as (H1 & H2 & H3 & H4 & H5 & H6 & H7 & H8 & H9 & H10 & H11 & Hother & Hpass).
  repeat (split; [assumption|]).
  split.
  - apply Hother. apply (bool_decide_unpack _). vm_compute. reflexivity.
  - apply Hpass. discriminate.
Defined.

(** ** setData *)

Section SetData.
Context `{Declarations}.

Lemma setData_out_of_range (s : UserModel) idx value role :
  row idx < 0 ∨ count (m_users s) ≤ row idx ∨ column idx ≠ 0 →
  setData idx value role s = Some (false, s).
Proof.
  intros Hout. unfold setData. unfold_M.
  assert ((row idx <? 0) || (count (m_users s) <=? row idx)
          || negb (column idx =? 0) = true) as ->; [|done].
  destruct Hout as [Hr|[Hr|Hc]].
  - rewrite (proj2 (Z.ltb_lt _ _) Hr). done.
  - rewrite (proj2 (Z.leb_le _ _) Hr). by rewrite orb_true_r.
  - apply Z.eqb_neq in Hc. rewrite Hc. by rewrite orb_true_r.
Qed.

Lemma setData_guard_cases (s : UserModel) idx :
  (row idx < 0 ∨ count (m_users s) ≤ row idx ∨ column idx ≠ 0)
  ∨ (0 ≤ row idx < count (m_users s) ∧ column idx = 0).
Proof. lia. Qed.

Lemma setData_guard_false (s : UserModel) idx :
  0 ≤ row idx < count (m_users s) → column idx = 0 →
  (row idx <? 0) || (count (m_users s) <=? row idx) || negb (column idx =? 0) = false.
Proof.
  intros Hr Hc. rewrite out_of_range_false by done. rewrite Hc. done.
Qed.

(** C5. Renaming an in-range row to its current name, or to the empty
    string, returns false and leaves the model object as it was: no row
    changes, no call is issued, nothing is emitted. *)
Theorem setData_name_unchanged_or_empty (s : UserModel) idx value user :
  0 ≤ row idx < count (m_users s) →
  m_users s !! Z.to_nat (row idx) = Some user →
  toString value = name user ∨ toString value = EmptyString →
  setData idx value NameRole s = Some (false, s).
Proof.
  intros Hr Hu Hv.
  destruct (setData_guard_cases s idx) as [Hout|[_ Hc]];
    [by apply setData_out_of_range|].
  unfold setData. unfold_M. rewrite setData_guard_false by done.
  destruct (QVector_at_Some (row idx) (m_users s) Hr) as (x & -> & Hx).
  assert (x = user) as -> by congruence.
  rewrite Z.eqb_refl.
  destruct Hv as [->| ->].
  - rewrite String.eqb_refl. by rewrite orb_true_r.
  - done.
Qed.

(** C10. For a role other than the name role and any value, and for any
    index outside the rows or outside column 0, setData returns false and
    leaves the model object as it was. *)
Theorem setData_other_role_or_index (s : UserModel) idx value role :
  (role ≠ NameRole → setData idx value role s = Some (false, s))
  ∧ (row idx < 0 ∨ count (m_users s) ≤ row idx ∨ column idx ≠ 0 →
     setData idx value role s = Some (false, s)).
Proof.
  split; [|apply setData_out_of_range].
  intros Hrole.
  destruct (setData_guard_cases s idx) as [Hout|[Hr Hc]];
    [by apply setData_out_of_range|].
  unfold setData. unfold_M. rewrite setData_guard_false by done.
  destruct (QVector_at_Some (row idx) (m_users s) Hr) as (x & -> & Hx).
  apply Z.eqb_neq in Hrole. by rewrite Hrole.
Qed.
End SetData.

Lemma setData_name_unchanged_or_empty_witness :
  @setData sample_declarations {| row := 1; column := 0 |}
    (QVariant_string "bob") 258 two_users = Some (false, two_users)
  ∧ @setData sample_declarations {| row := 0; column := 0 |}
      QVariant_invalid 258 two_users = Some (false, two_users).
Proof.
  split.
  - apply (@setData_name_unchanged_or_empty sample_declarations two_users
             {| row := 1; column := 0 |} (QVariant_string "bob") (committed 1001 "bob")).
    + vm_compute. split; [discriminate | reflexivity].
    + reflexivity.
    + left. reflexivity.
  - apply (@setData_name_unchanged_or_empty sample_declarations two_users
             {| row := 0; column := 0 |} QVariant_invalid (committed 1000 "alice")).
    + vm_compute. split; [discriminate | reflexivity].
    + reflexivity.
    + right. reflexivity.
Defined.

Lemma setData_other_role_or_index_witness :
  @setData sample_declarations {| row := 0; column := 0 |}
    (QVariant_string "eve") 259 two_users = Some (false, two_users)
  ∧ @setData sample_declarations {| row := 2; column := 0 |}
      (QVariant_string "eve") 258 two_users = Some (false, two_users).
Proof.
  split.
  - apply (proj1 (@setData_other_role_or_index sample_declarations two_users
             {| row := 0; column := 0 |} (QVariant_string "eve") 259)).
    intros Heq. vm_compute in Heq. discriminate Heq.
  - apply (proj2 (@setData_other_role_or_index sample_declarations two_users
             {| row := 2; column := 0 |} (QVariant_string "eve") 258)).
    right. left. vm_compute. discriminate.
Defined.

(** ** reset and the completion handlers *)

Section Completion.
Context `{Declarations}.

Lemma in_range_true {A} (i : Z) (l : list A) :
  0 ≤ i < count l → in_range i l = true.
Proof.
  intros Hi. unfold in_range. apply andb_true_iff.
  split; [apply Z.leb_le | apply Z.ltb_lt]; lia.
Qed.

Lemma count_insert {A} (i : nat) (x : A) (l : list A) :
  count (<[i := x]> l) = count l.
Proof. unfold count. by rewrite length_insert. Qed.

Lemma reset_out_of_range (os : OS) (s : UserModel) r :
  r < 0 ∨ count (m_users s) ≤ r → reset os r s = Some (tt, s).
Proof.
  intros Hr. unfold reset. unfold_M. by rewrite out_of_range_true.
Qed.

Lemma reset_in_range (os : OS) (s : UserModel) r x :
  0 ≤ r < count (m_users s) →
  m_users s !! Z.to_nat r = Some x →
  reset os r s =
    Some (tt, with_signal
                (dataChanged {| row := r; column := 0 |} {| row := r; column := 0 |} [])
                (with_users (<[Z.to_nat r := UserInfo_reset os x]> (m_users s)) s)).
Proof.
  intros Hr Hx. unfold reset. unfold_M. rewrite out_of_range_false by done.
  destruct (QVector_at_Some r (m_users s) Hr) as (y & -> & Hy).
  assert (y = x) as -> by congruence.
  unfold QVector_set. rewrite in_range_true by done.
  unfold index. unfold_M. cbn [m_users with_users].
  rewrite count_insert. rewrite out_of_range_false by done. done.
Qed.

(** C7. removeUser on a valid row in range issues removeUser(uid) and
    touches neither the rows nor the uid index nor the signals; the
    success reply changes nothing, the error reply leaves rows and index
    as they are and emits userRemoveFailed for the row with the
    classified error; the row goes only when the userRemoved broadcast
    for its uid is handled. *)
Theorem removeUser_waits_for_broadcast (s : UserModel) r user :
  0 ≤ r < count (m_users s) →
  m_users s !! Z.to_nat r = Some user →
  isValid user = true →
  let s1 := with_call {| call_method := "removeUser";
                         call_args := [arg_uint (uid user)];
                         call_finished := slot_userRemoveFinished r |}
                      (with_interface s) in
  removeUser r s = Some (tt, s1)
  ∧ m_users s1 = m_users s
  ∧ m_uidsToRows s1 = m_uidsToRows s
  ∧ emitted s1 = emitted s
  ∧ (∀ s', userRemoveFinished (reply_value tt) r s' = Some (tt, s'))
  ∧ (∀ s' e, ∃ s2,
       userRemoveFinished (reply_error e) r s' = Some (tt, s2)
       ∧ m_users s2 = m_users s'
       ∧ m_uidsToRows s2 = m_uidsToRows s'
       ∧ asyncCalls s2 = asyncCalls s'
       ∧ emitted s2 = emitted s' ++ [userRemoveFailed r (getErrorType e)])
  ∧ (m_uidsToRows s !! uid user = Some r →
     ∃ s2, onUserRemoved (uid user) s1 = Some (tt, s2)
           ∧ m_users s2 = delete (Z.to_nat r) (m_users s)).
Proof.
  intros Hr Hu Hv s1.
  split; [|split; [done|split; [done|split; [done|split; [done|split]]]]].
  - unfold removeUser. unfold_M. rewrite out_of_range_false by done.
    destruct (QVector_at_Some r (m_users s) Hr) as (y & -> & Hy).
    assert (y = user) as -> by congruence.
    rewrite Hv. done.
  - intros s' e. eexists. split; [reflexivity|]. done.
  - intros Hidx. unfold onUserRemoved. unfold_M.
    cbn [m_uidsToRows s1 with_call with_interface with_signal m_users].
    unfold QHash_contains, QHash_value. rewrite Hidx. cbn [negb default].
    unfold QVector_remove. rewrite in_range_true by done.
    eexists. split; [reflexivity|]. done.
Qed.

(** C6 (as the code has it). setData on the name of a valid row in range
    with a non-empty name that differs from the current one writes the name
    into the row at once, issues modifyUser(uid, name) and emits
    dataChanged for the name role, all before any reply; the success reply
    changes nothing; the error reply, when the renamed record is still at
    the row bound by setData (as it is right after setData), emits
    userModifyFailed for that row with the classified error and restores
    the row from the system identity lookup. *)
Theorem setData_rename_then_reply (os : OS) (s : UserModel) idx value user :
  0 ≤ row idx < count (m_users s) →
  column idx = 0 →
  m_users s !! Z.to_nat (row idx) = Some user →
  isValid user = true →
  toString value ≠ EmptyString →
  toString value ≠ name user →
  let renamed := setName (toString value) user in
  let s1 := with_signal (dataChanged idx idx [NameRole])
              (with_call {| call_method := "modifyUser";
                            call_args := [arg_uint (uid user); arg_string (toString value)];
                            call_finished := slot_userModifyFinished (row idx) |}
                 (with_interface
                    (with_users (<[Z.to_nat (row idx) := renamed]> (m_users s)) s))) in
  setData idx value NameRole s = Some (true, s1)
  ∧ m_users s1 !! Z.to_nat (row idx) = Some renamed
  ∧ name renamed = toString value
  ∧ (∀ s', userModifyFinished os (reply_value tt) (row idx) s' = Some (tt, s'))
  ∧ (∀ s' e,
       0 ≤ row idx < count (m_users s') →
       m_users s' !! Z.to_nat (row idx) = Some renamed →
       ∃ s2,
         userModifyFinished os (reply_error e) (row idx) s' = Some (tt, s2)
         ∧ emitted s2 = emitted s' ++
             [userModifyFailed (row idx) (getErrorType e); dataChanged idx idx []]
         ∧ m_users s2 =
             <[Z.to_nat (row idx) := UserInfo_reset os renamed]> (m_users s')
         ∧ m_uidsToRows s2 = m_uidsToRows s'
         ∧ asyncCalls s2 = asyncCalls s'
         ∧ (∀ i, os (uid user) = Some i →
              name <$> m_users s2 !! Z.to_nat (row idx) = Some (id_name i)))
  ∧ (∀ e, ∃ s2,
       userModifyFinished os (reply_error e) (row idx) s1 = Some (tt, s2)
       ∧ emitted s2 = emitted s1 ++
           [userModifyFailed (row idx) (getErrorType e); dataChanged idx idx []]
       ∧ m_users s2 = <[Z.to_nat (row idx) := UserInfo_reset os renamed]> (m_users s)
       ∧ m_uidsToRows s2 = m_uidsToRows s
       ∧ (∀ i, os (uid user) = Some i →
            name <$> m_users s2 !! Z.to_nat (row idx) = Some (id_name i))).
Proof.
  intros Hr Hc Hu Hv Hne Hdiff renamed s1.
  assert (Hlt : (Z.to_nat (row idx) < length (m_users s))%nat)
    by (unfold count in Hr; lia).
  assert (Herror : ∀ s' y e,
            0 ≤ row idx < count (m_users s') →
            m_users s' !! Z.to_nat (row idx) = Some y →
            ∃ s2,
              userModifyFinished os (reply_error e) (row idx) s' = Some (tt, s2)
              ∧ emitted s2 = emitted s' ++
                  [userModifyFailed (row idx) (getErrorType e); dataChanged idx idx []]
              ∧ m_users s2 = <[Z.to_nat (row idx) := UserInfo_reset os y]> (m_users s')
              ∧ m_uidsToRows s2 = m_uidsToRows s'
              ∧ asyncCalls s2 = asyncCalls s').
  { intros s' y e Hr' Hy. eexists. split.
    - unfold userModifyFinished. unfold mbind, M_bind, emit.
      rewrite (reset_in_range os _ (row idx) y); [reflexivity|done|done].
    - destruct idx as [r c]. cbn in *. subst c.
      repeat split. by rewrite <- app_assoc. }
  split; [|split; [|split; [done|split; [done|split]]]].
  - unfold setData. unfold_M. rewrite setData_guard_false by done.
    destruct (QVector_at_Some (row idx) (m_users s) Hr) as (y & -> & Hy).
    assert (y = user) as -> by congruence.
    rewrite Z.eqb_refl.
    apply String.eqb_neq in Hne, Hdiff. rewrite Hne, Hdiff. cbn [orb].
    unfold QVector_set. rewrite in_range_true by done.
    cbn [isValid setName]. rewrite Hv. done.
  - cbn. by apply list_lookup_insert_eq.
  - intros s' e Hr' Hrow'.
    destruct (Herror s' renamed e Hr' Hrow') as (s2 & Hrun & Hem & Hrows & Hidx & Hcalls).
    exists s2. split; [exact Hrun|]. split; [exact Hem|]. split; [exact Hrows|].
    split; [exact Hidx|]. split; [exact Hcalls|].
    intros i Hi. rewrite Hrows.
    rewrite list_lookup_insert_eq by (unfold count in Hr'; lia).
    unfold UserInfo_reset. cbn. rewrite Hv, Hi. done.
  - intros e.
    assert (Hr1 : 0 ≤ row idx < count (m_users s1)).
    { cbn [m_users s1 with_signal with_call with_interface with_users].
      by rewrite count_insert. }
    assert (Hrow1 : m_users s1 !! Z.to_nat (row idx) = Some renamed)
      by (cbn; by apply list_lookup_insert_eq).
    destruct (Herror s1 renamed e Hr1 Hrow1) as (s2 & Hrun & Hem & Hrows & Hidx & _).
    exists s2. split; [exact Hrun|]. split; [exact Hem|].
    rewrite Hrows. cbn [m_users s1 with_signal with_call with_interface with_users].
    rewrite list_insert_insert_eq. repeat split; [done|].
    intros i Hi. rewrite list_lookup_insert_eq by done.
    unfold UserInfo_reset. cbn. rewrite Hv, Hi. done.
Qed.
End Completion.

(** ** The broadcast slots and the uid index *)

Section Broadcasts.

Lemma placeholder_run (s : UserModel) :
  placeholder s = Some (trailing_invalid (m_users s), s).
Proof.
  unfold placeholder, trailing_invalid. unfold_M.
  destruct (m_users s) as [|x l] eqn:Hl; [done|].
  assert ((count (x :: l) =? 0) = false) as ->
    by (apply Z.eqb_neq; unfold count; simpl; lia).
  destruct (last (x :: l)) as [y|] eqn:Hlast; [done|].
  by apply last_None in Hlast.
Qed.

Lemma QHash_contains_true (u : N) (m : gmap N Z) :
  QHash_contains u m = true ↔ is_Some (m !! u).
Proof.
  unfold QHash_contains. destruct (m !! u) as [v|]; split; intros Hx.
  - by exists v.
  - done.
  - done.
  - by destruct Hx.
Qed.

Lemma QHash_contains_false (u : N) (m : gmap N Z) :
  QHash_contains u m = false ↔ m !! u = None.
Proof. unfold QHash_contains. by destruct (m !! u). Qed.

Lemma insert_row_split (l : list UserInfo) :
  ∃ l0 tl, l = l0 ++ tl ∧ insert_row l = Z.of_nat (length l0)
           ∧ (∀ y, y ∈ tl → isValid y = false)
           ∧ (length tl ≤ 1)%nat
           ∧ (trailing_invalid l = true → length tl = 1%nat).
Proof.
  unfold insert_row, trailing_invalid.
  destruct (last l) as [p|] eqn:Hlast.
  - apply last_Some in Hlast as [l' ->].
    destruct (isValid p) eqn:Hp; cbn [negb].
    + exists (l' ++ [p]), []. rewrite app_nil_r. repeat split; try done.
      * intros y Hy. by apply elem_of_nil in Hy.
      * simpl. lia.
    + exists l', [p]. unfold count. rewrite length_app. simpl.
      repeat split; try done; try lia.
      intros y Hy. apply list_elem_of_singleton in Hy. by subst.
  - apply last_None in Hlast. subst l. exists [], []. repeat split; try done.
    + intros y Hy. by apply elem_of_nil in Hy.
    + simpl. lia.
Qed.

Lemma insert_row_range (l : list UserInfo) : 0 ≤ insert_row l ≤ count l.
Proof.
  destruct (insert_row_split l) as (l0 & tl & -> & -> & _).
  unfold count. rewrite length_app. lia.
Qed.

Lemma QVector_insert_row (l : list UserInfo) x :
  ∃ l0 tl, l = l0 ++ tl ∧ insert_row l = Z.of_nat (length l0)
           ∧ (∀ y, y ∈ tl → isValid y = false)
           ∧ (length tl ≤ 1)%nat
           ∧ (trailing_invalid l = true → length tl = 1%nat)
           ∧ QVector_insert (insert_row l) x l = Some (l0 ++ x :: tl).
Proof.
  destruct (insert_row_split l) as (l0 & tl & Hl & Hr & Htl & Hlen & Htr).
  exists l0, tl. repeat split; try done.
  unfold QVector_insert.
  pose proof (insert_row_range l) as Hrange.
  assert ((0 <=? insert_row l) && (insert_row l <=? count l) = true) as ->.
  { apply andb_true_iff. split; apply Z.leb_le; lia. }
  rewrite Hr, Nat2Z.id. subst l.
  by rewrite take_app_length, drop_app_length.
Qed.

Lemma onUserAdded_tracked (os : OS) u (s : UserModel) :
  is_Some (m_uidsToRows s !! u) → onUserAdded os u s = Some (tt, s).
Proof.
  intros Hu. apply QHash_contains_true in Hu.
  unfold onUserAdded. unfold_M. by rewrite Hu.
Qed.

Lemma onUserAdded_unknown (os : OS) u (s : UserModel) :
  isValid (UserInfo_of_uid os u) = false → onUserAdded os u s = Some (tt, s).
Proof.
  intros Hu. unfold onUserAdded. unfold_M. rewrite Hu.
  by destruct (QHash_contains u (m_uidsToRows s)).
Qed.

Lemma onUserAdded_fresh (os : OS) u (s : UserModel) :
  m_uidsToRows s !! u = None →
  isValid (UserInfo_of_uid os u) = true →
  ∃ l0 tl,
    m_users s = l0 ++ tl
    ∧ insert_row (m_users s) = Z.of_nat (length l0)
    ∧ (∀ y, y ∈ tl → isValid y = false)
    ∧ (length tl ≤ 1)%nat
    ∧ (trailing_invalid (m_users s) = true → length tl = 1%nat)
    ∧ onUserAdded os u s =
        Some (tt, with_signal endInsertRows
                    (with_uidsToRows (<[u := insert_row (m_users s)]> (m_uidsToRows s))
                       (with_users (l0 ++ UserInfo_of_uid os u :: tl)
                          (with_signal (beginInsertRows (insert_row (m_users s))
                                                        (insert_row (m_users s))) s)))).
Proof.
  intros Hu Hv.
  destruct (QVector_insert_row (m_users s) (UserInfo_of_uid os u))
    as (l0 & tl & Hl & Hr & Htl & Hlen & Htr & Hins).
  exists l0, tl. repeat split; try done.
  apply QHash_contains_false in Hu.
  unfold onUserAdded. unfold mbind, M_bind, get_uidsToRows.
  rewrite Hu, Hv, placeholder_run. unfold_M.
  cbn [m_users with_signal]. fold (insert_row (m_users s)).
  rewrite Hins. done.
Qed.

Lemma onUserRemoved_untracked u (s : UserModel) :
  m_uidsToRows s !! u = None → onUserRemoved u s = Some (tt, s).
Proof.
  intros Hu. apply QHash_contains_false in Hu.
  unfold onUserRemoved. unfold_M. by rewrite Hu.
Qed.

Lemma onUserRemoved_tracked u r (s : UserModel) :
  m_uidsToRows s !! u = Some r →
  onUserRemoved u s =
    match QVector_remove r (m_users s) with
    | Some l' =>
        Some (tt, with_signal endRemoveRows
                    (with_uidsToRows (renumber r <$> delete u (m_uidsToRows s))
                       (with_users l' (with_signal (beginRemoveRows r r) s))))
    | None => None
    end.
Proof.
  intros Hu. unfold onUserRemoved. unfold_M.
  unfold QHash_contains, QHash_value. rewrite Hu. cbn.
  by destruct (QVector_remove r (m_users s)).
Qed.

Lemma inverse_in_range l m u r :
  inverse l m → m !! u = Some r → 0 ≤ r < count l.
Proof.
  intros Hinv Hu. apply Hinv in Hu as (Hr & x & Hx & _).
  apply lookup_lt_Some in Hx. unfold count. lia.
Qed.

Lemma inverse_insert l0 tl m u x :
  inverse (l0 ++ tl) m →
  (∀ y, y ∈ tl → isValid y = false) →
  m !! u = None → isValid x = true → uid x = u →
  inverse (l0 ++ x :: tl) (<[u := Z.of_nat (length l0)]> m).
Proof.
  intros Hinv Htl Hu Hv Hx u' r'. split.
  - intros Hlk. destruct (decide (u = u')) as [<-|Hne].
    + rewrite lookup_insert_eq in Hlk. inversion Hlk; subst r'.
      split; [lia|]. exists x. rewrite Nat2Z.id.
      by rewrite list_lookup_middle.
    + rewrite lookup_insert_ne in Hlk by done.
      apply Hinv in Hlk as (Hr & y & Hy & Hyv & Hyu).
      split; [done|]. exists y. repeat split; try done.
      destruct (decide (Z.to_nat r' < length l0)%nat) as [Hlt|Hge].
      * rewrite lookup_app_l in Hy by done. by rewrite lookup_app_l.
      * rewrite lookup_app_r in Hy by lia.
        apply list_elem_of_lookup_2 in Hy. apply Htl in Hy. congruence.
  - intros (Hr & y & Hy & Hyv & Hyu).
    destruct (decide (Z.to_nat r' < length l0)%nat) as [Hlt|Hge].
    + rewrite lookup_app_l in Hy by done.
      assert (m !! u' = Some r') as Hm.
      { apply Hinv. split; [done|]. exists y. by rewrite lookup_app_l. }
      rewrite lookup_insert_ne; [done|]. congruence.
    + destruct (decide (Z.to_nat r' = length l0)) as [Heq|Hneq].
      * rewrite Heq, list_lookup_middle in Hy by done.
        inversion Hy; subst y.
        replace r' with (Z.of_nat (length l0)) by lia.
        rewrite <- Hyu, Hx. apply lookup_insert_eq.
      * rewrite lookup_app_r in Hy by lia.
        destruct (Z.to_nat r' - length l0)%nat as [|k] eqn:Hk; [lia|].
        simpl in Hy. apply list_elem_of_lookup_2 in Hy. apply Htl in Hy.
        congruence.
Qed.

Lemma inverse_remove l m u r :
  inverse l m → m !! u = Some r →
  inverse (delete (Z.to_nat r) l) (renumber r <$> delete u m).
Proof.
  intros Hinv Hu u' r'.
  pose proof (proj1 (Hinv u r) Hu) as (Hr & xr & Hxr & Hxrv & Hxru).
  rewrite lookup_fmap. split.
  - intros Hlk. destruct (decide (u = u')) as [<-|Hne].
    + by rewrite lookup_delete_eq in Hlk.
    + rewrite lookup_delete_ne in Hlk by done.
      destruct (m !! u') as [v|] eqn:Hv; [|done].
      cbn in Hlk. inversion Hlk as [Hr']. clear Hlk.
      apply Hinv in Hv as (Hv0 & y & Hy & Hyv & Hyu).
      assert (v ≠ r) as Hvr.
      { intros ->. rewrite Hxr in Hy. inversion Hy; subst y. congruence. }
      unfold renumber. destruct (r <? v) eqn:Hlt.
      * apply Z.ltb_lt in Hlt. split; [lia|]. exists y.
        repeat split; try done.
        rewrite list_lookup_delete_ge by lia.
        by replace (S (Z.to_nat (v - 1))) with (Z.to_nat v) by lia.
      * apply Z.ltb_ge in Hlt. split; [lia|]. exists y.
        repeat split; try done.
        rewrite list_lookup_delete_lt by lia. done.
  - intros (Hr' & y & Hy & Hyv & Hyu).
    destruct (decide (Z.to_nat r' < Z.to_nat r)%nat) as [Hlt|Hge].
    + rewrite list_lookup_delete_lt in Hy by done.
      assert (m !! u' = Some r') as Hm by (apply Hinv; eauto).
      assert (u ≠ u') by (intros ->; rewrite Hu in Hm; inversion Hm; lia).
      rewrite lookup_delete_ne by done. rewrite Hm. cbn.
      unfold renumber. by replace (r <? r') with false by (symmetry; apply Z.ltb_ge; lia).
    + rewrite list_lookup_delete_ge in Hy by lia.
      assert (m !! u' = Some (r' + 1)) as Hm.
      { apply Hinv. split; [lia|]. exists y.
        by replace (Z.to_nat (r' + 1)) with (S (Z.to_nat r')) by lia. }
      assert (u ≠ u') by (intros ->; rewrite Hu in Hm; inversion Hm; lia).
      rewrite lookup_delete_ne by done. rewrite Hm. cbn.
      unfold renumber.
      replace (r <? r' + 1) with true by (symmetry; apply Z.ltb_lt; lia).
      f_equal. lia.
Qed.
End Broadcasts.

Section IndexInvariant.

Lemma deliver_keeps_index_inverse (b : Broadcast) (s : UserModel) :
  index_inverse s →
  ∃ s', deliver b s = Some (tt, s') ∧ index_inverse s'.
Proof.
  intros Hinv. destruct b as [os u|u]; cbn [deliver].
  - destruct (m_uidsToRows s !! u) as [r|] eqn:Hu.
    { exists s. split; [|done]. apply onUserAdded_tracked. by exists r. }
    destruct (isValid (UserInfo_of_uid os u)) eqn:Hv.
    2:{ exists s. split; [|done]. by apply onUserAdded_unknown. }
    destruct (onUserAdded_fresh os u s Hu Hv)
      as (l0 & tl & Hl & Hr & Htl & _ & _ & ->).
    eexists. split; [reflexivity|].
    unfold index_inverse in *. cbn. rewrite Hr. rewrite Hl in Hinv.
    apply inverse_insert; try done.
    unfold UserInfo_of_uid in *. by destruct (os u).
  - destruct (m_uidsToRows s !! u) as [r|] eqn:Hu.
    2:{ exists s. split; [|done]. by apply onUserRemoved_untracked. }
    rewrite (onUserRemoved_tracked u r s Hu).
    unfold QVector_remove.
    rewrite in_range_true by (by eapply inverse_in_range).
    eexists. split; [reflexivity|].
    unfold index_inverse in *. cbn. by apply inverse_remove.
Qed.

Lemma deliver_all_keeps_index_inverse (bs : list Broadcast) (s : UserModel) :
  index_inverse s →
  ∃ tr, deliver_all bs s = Some tr
        ∧ length tr = length bs
        ∧ Forall index_inverse tr.
Proof.
  revert s. induction bs as [|b bs IH]; intros s Hinv.
  - exists []. by repeat split.
  - destruct (deliver_keeps_index_inverse b s Hinv) as (s' & Hs' & Hinv').
    destruct (IH s' Hinv') as (tr & Htr & Hlen & Hall).
    exists (s' :: tr). cbn [deliver_all]. rewrite Hs', Htr.
    repeat split; [cbn; by rewrite Hlen | by constructor].
Qed.

(** C1. From a cache whose uid index is the inverse of its rows, every
    sequence of userAdded and userRemoved broadcasts is handled to the
    end, and after each of them the index is again exactly the inverse of
    the rows on the valid rows; handling userRemoved for a tracked uid
    takes its row and its entry away and lowers by one every remaining
    index value above the removed row, leaving the others as they are. *)
Theorem broadcasts_keep_index_inverse (s : UserModel) (bs : list Broadcast) :
  index_inverse s →
  (∃ tr, deliver_all bs s = Some tr
         ∧ length tr = length bs
         ∧ Forall index_inverse tr)
  ∧ (∀ u r, m_uidsToRows s !! u = Some r →
       ∃ s', onUserRemoved u s = Some (tt, s')
             ∧ m_users s' = delete (Z.to_nat r) (m_users s)
             ∧ m_uidsToRows s' !! u = None
             ∧ ∀ u', u' ≠ u →
                 m_uidsToRows s' !! u' =
                   (λ v, if r <? v then v - 1 else v) <$> m_uidsToRows s !! u').
Proof.
  intros Hinv. split; [by apply deliver_all_keeps_index_inverse|].
  intros u r Hu. rewrite (onUserRemoved_tracked u r s Hu).
  unfold QVector_remove.
  rewrite in_range_true by (by eapply inverse_in_range).
  eexists. split; [reflexivity|]. cbn. repeat split.
  - by rewrite lookup_fmap, lookup_delete_eq.
  - intros u' Hne. by rewrite lookup_fmap, lookup_delete_ne.
Qed.

(** C8. Handling the same userRemoved broadcast twice is the same as
    handling it once: after the first delivery the uid has no index entry
    and the second delivery returns the model object as it is; on a cache
    whose index is the inverse of its rows the delivery always completes. *)
Theorem onUserRemoved_twice (u : N) (s : UserModel) :
  (onUserRemoved u ;; onUserRemoved u) s = onUserRemoved u s
  ∧ (∀ s1, onUserRemoved u s = Some (tt, s1) →
       m_uidsToRows s1 !! u = None ∧ onUserRemoved u s1 = Some (tt, s1))
  ∧ (index_inverse s → is_Some (onUserRemoved u s)).
Proof.
  assert (Hsecond : ∀ s1, onUserRemoved u s = Some (tt, s1) →
            m_uidsToRows s1 !! u = None ∧ onUserRemoved u s1 = Some (tt, s1)).
  { intros s1 Hs1.
    assert (m_uidsToRows s1 !! u = None) as Hnone.
    { destruct (m_uidsToRows s !! u) as [r|] eqn:Hu.
      - rewrite (onUserRemoved_tracked u r s Hu) in Hs1.
        destruct (QVector_remove r (m_users s)); [|done].
        inversion Hs1; subst s1. cbn.
        by rewrite lookup_fmap, lookup_delete_eq.
      - rewrite onUserRemoved_untracked in Hs1 by done.
        by inversion Hs1; subst s1. }
    split; [done|]. by apply onUserRemoved_untracked. }
  split; [|split; [exact Hsecond|]].
  - unfold mbind at 1. unfold M_bind.
    destruct (onUserRemoved u s) as [[[] s1]|] eqn:Hs1; [|done].
    by apply Hsecond.
  - intros Hinv.
    destruct (deliver_keeps_index_inverse (userRemoved u) s Hinv) as (s' & Hs' & _).
    cbn [deliver] in Hs'. by exists (tt, s').
Qed.
End IndexInvariant.

(** ** The scenarios of the specification *)

Lemma two_users_index_inverse : index_inverse two_users.
Proof.
  intros u r. unfold two_users, model_of. cbn [m_users m_uidsToRows]. split.
  - intros Hlk. rewrite !lookup_insert in Hlk.
    repeat case_decide; subst; try (by rewrite lookup_empty in Hlk);
      inversion Hlk; subst r; (split; [lia|]); eexists; by repeat split.
  - intros (Hr & x & Hx & Hv & Hu).
    destruct (Z.to_nat r) as [|[|n]] eqn:Hn; cbn in Hx; inversion Hx; subst x u.
    + by replace r with 0 by lia.
    + by replace r with 1 by lia.
Qed.

Lemma three_users_index_inverse : index_inverse three_users.
Proof.
  intros u r. unfold three_users, model_of. cbn [m_users m_uidsToRows]. split.
  - intros Hlk. rewrite !lookup_insert in Hlk.
    repeat case_decide; subst; try (by rewrite lookup_empty in Hlk);
      inversion Hlk; subst r; (split; [lia|]); eexists; by repeat split.
  - intros (Hr & x & Hx & Hv & Hu).
    destruct (Z.to_nat r) as [|[|[|n]]] eqn:Hn; cbn in Hx; inversion Hx; subst x u.
    + by replace r with 0 by lia.
    + by replace r with 1 by lia.
    + by replace r with 2 by lia.
Qed.

(** The index {1000:0, 1001:1, 1002:2} becomes {1001:0, 1002:1} when
    userRemoved(1000) is handled, and row 0 is gone. *)
Example userRemoved_1000_renumbers :
  (λ p, (m_users p.2, m_uidsToRows p.2)) <$> onUserRemoved 1000 three_users
  = Some ([committed 1001 "bob"; committed 1002 "carol"],
          <[1002%N := 1]> (<[1001%N := 0]> ∅)).
Proof. vm_compute. reflexivity. Qed.

Lemma broadcasts_keep_index_inverse_witness :
  index_inverse three_users
  ∧ (∃ tr, deliver_all [userRemoved 1000; userAdded sample_os 1000; userRemoved 1001]
                       three_users = Some tr
           ∧ length tr = 3%nat
           ∧ Forall index_inverse tr)
  ∧ (∃ s', onUserRemoved 1000 three_users = Some (tt, s')
           ∧ m_uidsToRows s' !! 1000%N = None
           ∧ m_uidsToRows s' !! 1002%N = Some 1).
Proof.
  split; [exact three_users_index_inverse|].
  destruct (broadcasts_keep_index_inverse three_users
              [userRemoved 1000; userAdded sample_os 1000; userRemoved 1001]
              three_users_index_inverse) as [Htrace Hremoved].
  split; [exact Htrace|].
  destruct (Hremoved 1000%N 0 eq_refl) as (s' & Hrun & _ & Hgone & Hothers).
  exists s'. split; [exact Hrun|]. split; [exact Hgone|].
  rewrite (Hothers 1002%N) by discriminate. reflexivity.
Defined.

Lemma onUserRemoved_twice_witness :
  index_inverse three_users
  ∧ is_Some (onUserRemoved 1000 three_users)
  ∧ (onUserRemoved 1000 ;; onUserRemoved 1000) three_users
    = onUserRemoved 1000 three_users.
Proof.
  split; [exact three_users_index_inverse|].
  destruct (onUserRemoved_twice 1000 three_users) as (Htwice & _ & Htotal).
  split; [exact (Htotal three_users_index_inverse) | exact Htwice].
Defined.

Lemma removeUser_waits_for_broadcast_witness :
  ∃ s1, removeUser 0 two_users = Some (tt, s1)
        ∧ m_users s1 = m_users two_users
        ∧ m_uidsToRows s1 = m_uidsToRows two_users.
Proof.
  eexists.
  assert (Hr : 0 ≤ 0 < count (m_users two_users))
    by (vm_compute; split; [discriminate | reflexivity]).
  pose proof (@removeUser_waits_for_broadcast sample_declarations two_users 0
                (committed 1000 "alice") Hr eq_refl eq_refl)
    as (Hrun & Husers & Hidx & _).
  split; [exact Hrun|]. split; [exact Husers | exact Hidx].
Defined.

(** C6 as the specification words it does not hold: after carol (row 2)
    is renamed and alice (row 0) is removed by a userRemoved broadcast,
    the error reply to modifyUser carries row 2, which no longer exists;
    carol, now at row 1, keeps the refused name instead of the name the
    identity lookup has. *)
Lemma setData_rename_then_reply_counterexample :
  ∃ s', (@setData sample_declarations {| row := 2; column := 0 |}
           (QVariant_string "caroline") 258 ;;
         (onUserRemoved 1000 ;;
          @userModifyFinished sample_declarations sample_os
            (reply_error {| error_type := 1; error_name := "UserModifyFailed" |}) 2))
          three_users = Some (tt, s')
        ∧ m_users s' = [committed 1001 "bob";
                        setName "caroline" (committed 1002 "carol")]
        ∧ id_name <$> sample_os 1002%N = Some "carol"
        ∧ ¬ (∃ x, x ∈ m_users s' ∧ uid x = 1002%N ∧ name x = "carol").
Proof.
  eexists. split; [vm_compute; reflexivity|]. split; [reflexivity|].
  split; [reflexivity|].
  intros (x & Hx & Hu & Hn).
  apply elem_of_cons in Hx as [->|Hx]; [discriminate Hu|].
  apply list_elem_of_singleton in Hx as ->. discriminate Hn.
Qed.

Lemma setData_rename_then_reply_witness :
  ∃ s1 s2,
    @setData sample_declarations {| row := 1; column := 0 |}
      (QVariant_string "robert") 258 two_users = Some (true, s1)
    ∧ m_users s1 !! 1%nat = Some (setName "robert" (committed 1001 "bob"))
    ∧ @userModifyFinished sample_declarations sample_os
        (reply_error {| error_type := 1; error_name := "UserModifyFailed" |}) 1 s1
      = Some (tt, s2)
    ∧ name <$> m_users s2 !! 1%nat = Some "bob"
    ∧ userModifyFailed 1 105 ∈ emitted s2.
Proof.
  assert (Hr : 0 ≤ 1 < count (m_users two_users))
    by (vm_compute; split; [discriminate | reflexivity]).
  assert (Hne : "robert" ≠ EmptyString) by discriminate.
  assert (Hdiff : "robert" ≠ "bob") by discriminate.
  pose proof (@setData_rename_then_reply sample_declarations sample_os two_users
                {| row := 1; column := 0 |} (QVariant_string "robert")
                (committed 1001 "bob") Hr eq_refl eq_refl eq_refl Hne Hdiff)
    as (Hrun & Hrow & _ & _ & Hlater & _).
  eexists.
  match type of Hrun with
  | _ = Some (_, ?s1) =>
      assert (Hr1 : 0 ≤ 1 < count (m_users s1))
        by (vm_compute; split; [discriminate | reflexivity]);
      destruct (Hlater s1 {| error_type := 1; error_name := "UserModifyFailed" |}
                  Hr1 Hrow)
        as (s2 & Hrun2 & Hem & _ & _ & _ & Hname)
  end.
  exists s2. split; [exact Hrun|]. split; [exact Hrow|]. split; [exact Hrun2|].
  split; [exact (Hname _ eq_refl)|].
  rewrite Hem. apply elem_of_app. right. apply list_elem_of_here.
Defined.

(** ** The add-user reply *)

Section AddReply.
Context `{Declarations}.

Lemma UserInfo_reset_identity (os : OS) x :
  uid (UserInfo_reset os x) = uid x ∧ isValid (UserInfo_reset os x) = isValid x.
Proof.
  unfold UserInfo_reset.
  by destruct (if isValid x then os (uid x) else None).
Qed.

Lemma UserInfo_reset_placeholder (os : OS) x :
  isValid x = false → name (UserInfo_reset os x) = EmptyString.
Proof. intros Hx. unfold UserInfo_reset. by rewrite Hx. Qed.

(** [reset(m_users.count()-1)]: the last row, if there is one, is reset. *)
Lemma reset_last (os : OS) (s : UserModel) :
  ∃ s2, reset os (count (m_users s) - 1) s = Some (tt, s2)
        ∧ m_uidsToRows s2 = m_uidsToRows s
        ∧ asyncCalls s2 = asyncCalls s
        ∧ length (m_users s2) = length (m_users s)
        ∧ ∀ i x, m_users s !! i = Some x →
            m_users s2 !! i =
              Some (if decide (S i = length (m_users s)) then UserInfo_reset os x else x).
Proof.
  destruct (decide (m_users s = [])) as [Hnil|Hne].
  - exists s. rewrite reset_out_of_range by (rewrite Hnil; unfold count; cbn; lia).
    repeat split. intros i x Hx. by rewrite Hnil in Hx.
  - assert (0 ≤ count (m_users s) - 1 < count (m_users s)) as Hr.
    { unfold count. destruct (m_users s); [done|]. simpl. lia. }
    destruct (QVector_at_Some _ _ Hr) as (p & _ & Hp).
    rewrite (reset_in_range os s _ p Hr Hp).
    eexists. split; [reflexivity|]. cbn. repeat split.
    + by rewrite length_insert.
    + intros i x Hx. unfold count in *.
      case_decide as Hi.
      * replace (Z.to_nat (Z.of_nat (length (m_users s)) - 1)) with i in * by lia.
        rewrite list_lookup_insert_eq by (by eapply lookup_lt_Some).
        congruence.
      * rewrite list_lookup_insert_ne by lia. done.
Qed.

Lemma userAddFinished_tracked (os : OS) u (s : UserModel) :
  is_Some (m_uidsToRows s !! u) →
  userAddFinished os (reply_value u) s = reset os (count (m_users s) - 1) s.
Proof.
  intros Hu. apply QHash_contains_true in Hu.
  unfold userAddFinished. unfold mbind, M_bind, mret, M_ret, get_uidsToRows, get_users.
  by rewrite Hu.
Qed.

(** C4. When the userAdded broadcast for uid u has been handled and u is
    tracked (it was tracked before, or the identity lookup knew it when
    the broadcast was handled), the success reply of addUser with the same
    uid inserts nothing: the number of rows, their uids and the uid index
    are as before the reply; the last row is reset, so that a trailing
    placeholder has its name cleared. *)
Theorem userAddFinished_after_userAdded (os os' : OS) (u : N) (s : UserModel) :
  is_Some (m_uidsToRows s !! u) ∨ isValid (UserInfo_of_uid os u) = true →
  ∃ s1 s2,
    onUserAdded os u s = Some (tt, s1)
    ∧ is_Some (m_uidsToRows s1 !! u)
    ∧ userAddFinished os' (reply_value u) s1 = Some (tt, s2)
    ∧ length (m_users s2) = length (m_users s1)
    ∧ uid <$> m_users s2 = uid <$> m_users s1
    ∧ m_uidsToRows s2 = m_uidsToRows s1
    ∧ (∀ i x, m_users s1 !! i = Some x →
         m_users s2 !! i =
           Some (if decide (S i = length (m_users s1)) then UserInfo_reset os' x else x))
    ∧ (∀ p, last (m_users s1) = Some p → isValid p = false →
         ∃ p', last (m_users s2) = Some p'
               ∧ isValid p' = false ∧ name p' = EmptyString).
Proof.
  intros Hpre.
  assert (∃ s1, onUserAdded os u s = Some (tt, s1) ∧ is_Some (m_uidsToRows s1 !! u))
    as (s1 & Hs1 & Htracked).
  { destruct (m_uidsToRows s !! u) as [r|] eqn:Hu.
    - exists s. split; [|by exists r]. apply onUserAdded_tracked. by exists r.
    - destruct Hpre as [[r Hr]|Hv]; [done|].
      destruct (onUserAdded_fresh os u s Hu Hv) as (l0 & tl & _ & _ & _ & _ & _ & ->).
      eexists. split; [reflexivity|]. cbn. rewrite lookup_insert_eq. by eexists. }
  destruct (reset_last os' s1) as (s2 & Hs2 & Hidx & _ & Hlen & Hrows).
  exists s1, s2. rewrite userAddFinished_tracked by done.
  repeat split; try done.
  - apply list_eq. intros i. rewrite !list_lookup_fmap.
    destruct (m_users s1 !! i) as [x|] eqn:Hx.
    + rewrite (Hrows i x Hx). cbn. case_decide; [|done].
      by rewrite (proj1 (UserInfo_reset_identity os' x)).
    + apply lookup_ge_None in Hx. rewrite <- Hlen in Hx.
      apply lookup_ge_None in Hx. by rewrite Hx.
  - intros p Hp Hpv. rewrite last_lookup in Hp.
    pose proof (lookup_lt_Some _ _ _ Hp) as Hlt.
    exists (UserInfo_reset os' p). rewrite last_lookup, Hlen.
    rewrite (Hrows _ p Hp). rewrite decide_True by lia.
    repeat split.
    + by rewrite (proj2 (UserInfo_reset_identity os' p)).
    + by apply UserInfo_reset_placeholder.
Qed.

(** C3 (as the code has it). From two committed users and a placeholder
    with a name, createUser issues addUser(name); when the success reply
    carries a uid that is not tracked and that the identity lookup knows,
    the new committed user is inserted at position 2 and tracked there,
    and the placeholder stays as a row of its own, the last one, invalid
    and with its name cleared: four rows, three of them valid and exactly
    one invalid. *)
Theorem createUser_commit_keeps_placeholder (os : OS) (s : UserModel) a b p u :
  m_users s = [a; b; p] →
  isValid a = true → isValid b = true →
  isValid p = false → name p ≠ EmptyString →
  m_uidsToRows s !! u = None →
  is_Some (os u) →
  ∃ s1 s2,
    createUser s = Some (tt, s1)
    ∧ m_users s1 = m_users s
    ∧ m_uidsToRows s1 = m_uidsToRows s
    ∧ asyncCalls s1 = asyncCalls s ++
        [{| call_method := "addUser"; call_args := [arg_string (name p)];
            call_finished := slot_userAddFinished |}]
    ∧ userAddFinished os (reply_value u) s1 = Some (tt, s2)
    ∧ m_users s2 = [a; b; UserInfo_of_uid os u; UserInfo_reset os p]
    ∧ count (m_users s2) = 4
    ∧ isValid (UserInfo_reset os p) = false
    ∧ name (UserInfo_reset os p) = EmptyString
    ∧ m_uidsToRows s2 = <[u := 2]> (m_uidsToRows s)
    ∧ isValid (UserInfo_of_uid os u) = true
    ∧ uid (UserInfo_of_uid os u) = u
    ∧ length (filter (λ x, isValid x = true) (m_users s2)) = 3%nat
    ∧ invalid_rows (m_users s2) = 1%nat.
Proof.
  intros Hrows Ha Hb Hp Hname Hu Hknown.
  apply String.eqb_neq in Hname. apply QHash_contains_false in Hu.
  destruct s as [users m iface calls sigs]. cbn in Hrows, Hu. subst users.
  assert (Hcreate : createUser
            {| m_users := [a; b; p]; m_uidsToRows := m; m_dBusInterface := iface;
               asyncCalls := calls; emitted := sigs |}
          = Some (tt, {| m_users := [a; b; p]; m_uidsToRows := m;
                         m_dBusInterface := true;
                         asyncCalls := calls ++
                           [{| call_method := "addUser";
                               call_args := [arg_string (name p)];
                               call_finished := slot_userAddFinished |}];
                         emitted := sigs |})).
  { unfold createUser, placeholder, count. unfold_M. cbn [length m_users].
    change (Z.of_nat 3) with 3. cbn. rewrite Hp. cbn.
    rewrite Hname. reflexivity. }
  set (s1 := {| m_users := [a; b; p]; m_uidsToRows := m; m_dBusInterface := true;
                asyncCalls := calls ++
                  [{| call_method := "addUser"; call_args := [arg_string (name p)];
                      call_finished := slot_userAddFinished |}];
                emitted := sigs |}) in *.
  set (s2 := {| m_users := [a; b; UserInfo_of_uid os u; UserInfo_reset os p];
                m_uidsToRows := <[u := 2]> m; m_dBusInterface := true;
                asyncCalls := asyncCalls s1;
                emitted := ((sigs ++ [beginInsertRows 2 2]) ++ [endInsertRows]) ++
                  [dataChanged {| row := 3; column := 0 |}
                               {| row := 3; column := 0 |} []] |}).
  assert (Hreply : userAddFinished os (reply_value u) s1 = Some (tt, s2)).
  { unfold userAddFinished, reset, index, QVector_insert, QVector_at,
      QVector_set, in_range, count. unfold_M.
    cbn [m_users m_uidsToRows s1]. rewrite Hu. cbn [negb length].
    change (Z.of_nat 3) with 3.
    cbn -[UserInfo_of_uid UserInfo_reset].
    change (Z.of_nat 4) with 4.
    cbn -[UserInfo_of_uid UserInfo_reset]. reflexivity. }
  exists s1, s2. split; [exact Hcreate|].
  split; [reflexivity|]. split; [reflexivity|]. split; [reflexivity|].
  split; [exact Hreply|].
  split; [reflexivity|]. split; [reflexivity|].
  split; [by rewrite (proj2 (UserInfo_reset_identity os p))|].
  split; [by apply UserInfo_reset_placeholder|].
  split; [reflexivity|].
  destruct Hknown as [i Hi].
  assert (isValid (UserInfo_of_uid os u) = true ∧ uid (UserInfo_of_uid os u) = u)
    as [Hv Hid] by (unfold UserInfo_of_uid; by rewrite Hi).
  split; [exact Hv|]. split; [exact Hid|].
  unfold invalid_rows. cbn [m_users s2].
  rewrite !filter_cons, !filter_nil.
  rewrite (proj2 (UserInfo_reset_identity os p)).
  rewrite Ha, Hb, Hp, Hv. done.
Qed.
End AddReply.

Lemma userAddFinished_after_userAdded_witness :
  ∃ s1 s2,
    onUserAdded sample_os 1002 two_users_and_carol = Some (tt, s1)
    ∧ @userAddFinished sample_declarations sample_os (reply_value 1002%N) s1
      = Some (tt, s2)
    ∧ length (m_users s2) = length (m_users s1)
    ∧ m_uidsToRows s2 = m_uidsToRows s1.
Proof.
  destruct (@userAddFinished_after_userAdded sample_declarations sample_os sample_os
              1002%N two_users_and_carol (or_intror eq_refl))
    as (s1 & s2 & Hadded & _ & Hreply & Hlen & _ & Hidx & _).
  exists s1, s2. split; [exact Hadded|]. split; [exact Hreply|].
  split; [exact Hlen | exact Hidx].
Defined.

(** C4 as the specification words it does not hold: a userAdded broadcast
    handled while the identity lookup does not know the uid inserts and
    tracks nothing, and the reply with the same uid then inserts a row. *)
Lemma userAddFinished_after_userAdded_counterexample :
  ∃ s1 s2,
    onUserAdded (λ _, None) 1002 two_users_and_carol = Some (tt, s1)
    ∧ @userAddFinished sample_declarations sample_os (reply_value 1002%N) s1
      = Some (tt, s2)
    ∧ m_uidsToRows s1 !! 1002%N = None
    ∧ length (m_users s1) = 3%nat
    ∧ length (m_users s2) = 4%nat
    ∧ m_uidsToRows s2 !! 1002%N = Some 2
    ∧ ¬ (length (m_users s2) = length (m_users s1)
         ∧ m_uidsToRows s2 = m_uidsToRows s1).
Proof.
  eexists. eexists. split; [vm_compute; reflexivity|].
  split; [vm_compute; reflexivity|].
  split; [reflexivity|]. split; [reflexivity|]. split; [reflexivity|].
  split; [reflexivity|].
  intros [Hlen _]. vm_compute in Hlen. discriminate Hlen.
Qed.

Lemma createUser_commit_keeps_placeholder_witness :
  ∃ s1 s2,
    createUser two_users_and_carol = Some (tt, s1)
    ∧ @userAddFinished sample_declarations sample_os (reply_value 1002%N) s1
      = Some (tt, s2)
    ∧ count (m_users s2) = 4
    ∧ invalid_rows (m_users s2) = 1%nat.
Proof.
  assert (Hname : name (setName "carol" UserInfo_placeholder) ≠ EmptyString)
    by discriminate.
  assert (Hknown : is_Some (sample_os 1002%N)) by (eexists; reflexivity).
  destruct (@createUser_commit_keeps_placeholder sample_declarations sample_os
              two_users_and_carol (committed 1000 "alice") (committed 1001 "bob")
              (setName "carol" UserInfo_placeholder) 1002%N
              eq_refl eq_refl eq_refl eq_refl Hname eq_refl Hknown)
    as (s1 & s2 & Hcreate & _ & _ & _ & Hreply & _ & Hcount & _ & _ & _ & _ & _
        & _ & Hinv).
  exists s1, s2. split; [exact Hcreate|]. split; [exact Hreply|].
  split; [exact Hcount|]. exact Hinv.
Defined.

(** C3 as the specification words it does not hold: in its own scenario
    the cache ends with four rows, one of them the invalid placeholder,
    not with three rows and no invalid one. *)
Lemma createUser_commit_counterexample :
  ∃ s', (createUser ;; @userAddFinished sample_declarations sample_os
                         (reply_value 1002%N)) two_users_and_carol = Some (tt, s')
        ∧ m_users s' = [committed 1000 "alice"; committed 1001 "bob";
                        committed 1002 "carol"; UserInfo_placeholder]
        ∧ ¬ (count (m_users s') = 3 ∧ invalid_rows (m_users s') = 0%nat).
Proof.
  eexists. split; [vm_compute; reflexivity|]. split; [reflexivity|].
  intros [Hcount _]. vm_compute in Hcount. discriminate Hcount.
Qed.

(** C2. The reply handler of addUser inserts the record of the replied uid
    without looking at its validity: when the identity lookup does not know
    the uid, a second invalid row is inserted in front of the placeholder,
    so two rows are invalid and one of them is not the last row. *)
Theorem userAddFinished_unknown_uid_second_invalid_row :
  ∃ s', (createUser ;; @userAddFinished sample_declarations sample_os
                         (reply_value 1003%N)) two_users_and_carol = Some (tt, s')
        ∧ m_users s' = [committed 1000 "alice"; committed 1001 "bob";
                        UserInfo_placeholder; UserInfo_placeholder]
        ∧ m_uidsToRows s' !! 1003%N = Some 2
        ∧ invalid_rows (m_users s') = 2%nat
        ∧ ¬ placeholder_last (m_users s').
Proof.
  eexists. split; [vm_compute; reflexivity|]. split; [reflexivity|].
  split; [reflexivity|]. split; [reflexivity|].
  intros Hlast. specialize (Hlast 2%nat UserInfo_placeholder eq_refl eq_refl).
  vm_compute in Hlast. discriminate Hlast.
Qed.

(** ** The placeholder row *)

Section PlaceholderLast.
Context `{Declarations}.

Lemma trailing_invalid_lookup (l : list UserInfo) i x :
  l !! i = Some x → S i = length l → isValid x = false →
  trailing_invalid l = true.
Proof.
  intros Hx Hi Hv. unfold trailing_invalid. rewrite last_lookup.
  replace (pred (length l)) with i by lia. by rewrite Hx, Hv.
Qed.

Lemma placeholder_last_set (l : list UserInfo) i x y :
  l !! i = Some x → isValid y = isValid x →
  placeholder_last l → placeholder_last (<[i := y]> l).
Proof.
  intros Hx Hy Hpl j z Hj Hz. rewrite length_insert.
  destruct (decide (i = j)) as [->|Hne].
  - rewrite list_lookup_insert_eq in Hj by (by eapply lookup_lt_Some).
    inversion Hj; subst z. apply (Hpl j x); congruence.
  - rewrite list_lookup_insert_ne in Hj by done. by apply (Hpl j z).
Qed.

Lemma placeholder_last_delete (l : list UserInfo) i :
  (i < length l)%nat → placeholder_last l → placeholder_last (delete i l).
Proof.
  intros Hi Hpl j z Hj Hz.
  rewrite length_delete by (by apply lookup_lt_is_Some_2).
  destruct (decide (j < i)%nat) as [Hlt|Hge].
  - rewrite list_lookup_delete_lt in Hj by done.
    specialize (Hpl j z Hj Hz). lia.
  - rewrite list_lookup_delete_ge in Hj by lia.
    specialize (Hpl (S j) z Hj Hz). lia.
Qed.

Lemma placeholder_last_append (l : list UserInfo) p :
  trailing_invalid l = false →
  placeholder_last l → placeholder_last (l ++ [p]).
Proof.
  intros Htr Hpl j z Hj Hz. rewrite length_app. cbn.
  destruct (decide (j < length l)%nat) as [Hlt|Hge].
  - rewrite lookup_app_l in Hj by done.
    pose proof (Hpl j z Hj Hz) as Hlast.
    rewrite (trailing_invalid_lookup l j z) in Htr; done.
  - apply lookup_lt_Some in Hj. rewrite length_app in Hj. cbn in Hj. lia.
Qed.

Lemma placeholder_last_insert_valid (l0 tl : list UserInfo) x :
  isValid x = true →
  length tl = 1%nat ∨ (tl = [] ∧ trailing_invalid l0 = false) →
  placeholder_last (l0 ++ tl) → placeholder_last (l0 ++ x :: tl).
Proof.
  intros Hx Htl Hpl j z Hj Hz. rewrite length_app. cbn.
  destruct (decide (j < length l0)%nat) as [Hlt|Hge].
  - rewrite lookup_app_l in Hj by done.
    assert ((l0 ++ tl) !! j = Some z) as Hj' by (by rewrite lookup_app_l).
    pose proof (Hpl j z Hj' Hz) as Hlast. rewrite length_app in Hlast.
    destruct Htl as [Hlen|[-> Htr]]; [lia|].
    cbn in Hlast. rewrite (trailing_invalid_lookup l0 j z) in Htr; [done..|lia|done].
  - rewrite lookup_app_r in Hj by lia.
    destruct (j - length l0)%nat as [|k] eqn:Hk; cbn in Hj.
    + inversion Hj; subst z. congruence.
    + apply lookup_lt_Some in Hj.
      destruct Htl as [Hlen|[-> _]]; [lia | cbn in Hj; lia].
Qed.

Lemma reset_validity (os : OS) r (s s' : UserModel) :
  reset os r s = Some (tt, s') →
  placeholder_last (m_users s) → placeholder_last (m_users s').
Proof.
  intros Hrun Hpl.
  destruct (decide (0 ≤ r < count (m_users s))) as [Hr|Hr].
  - destruct (QVector_at_Some r (m_users s) Hr) as (x & _ & Hx).
    rewrite (reset_in_range os s r x Hr Hx) in Hrun.
    inversion Hrun; subst s'. cbn.
    apply (placeholder_last_set _ _ x); [done| |done].
    apply UserInfo_reset_identity.
  - rewrite reset_out_of_range in Hrun by lia. by inversion Hrun; subst s'.
Qed.

(** Every operation but one keeps the invalid row single and last; the
    reply to addUser does so when the identity lookup knows the replied
    uid. *)
Lemma perform_keeps_placeholder_last (op : Operation) (s s' : UserModel) :
  reply_uid_known op →
  perform op s = Some (tt, s') →
  placeholder_last (m_users s) → placeholder_last (m_users s').
Proof.
  intros Hknown Hrun Hpl. destruct op as [value| |os reply|os u|u newName|u|u];
    cbn [perform reply_uid_known] in *.
  - (* setPlaceholder *)
    unfold setPlaceholder in Hrun. unfold mbind, M_bind in Hrun.
    rewrite placeholder_run in Hrun.
    destruct (trailing_invalid (m_users s)) eqn:Htr, value; cbn in Hrun;
      unfold_M; cbn in Hrun.
    + by inversion Hrun; subst s'.
    + unfold QVector_remove in Hrun.
      destruct (in_range (count (m_users s) - 1) (m_users s)) eqn:Hin; [|done].
      inversion Hrun; subst s'. cbn.
      apply placeholder_last_delete; [|done].
      unfold in_range, count in *. apply andb_true_iff in Hin as [Hlo Hhi].
      apply Z.leb_le in Hlo. apply Z.ltb_lt in Hhi. lia.
    + inversion Hrun; subst s'. cbn. by apply placeholder_last_append.
    + by inversion Hrun; subst s'.
  - (* createUser *)
    unfold createUser in Hrun. unfold mbind, M_bind in Hrun.
    rewrite placeholder_run in Hrun.
    destruct (trailing_invalid (m_users s)); cbn in Hrun; unfold_M.
    + destruct (last (m_users s)) as [p|]; [|done].
      destruct (String.eqb (name p) EmptyString);
        by inversion Hrun; subst s'.
    + by inversion Hrun; subst s'.
  - (* userAddFinished *)
    destruct reply as [e|u].
    { cbn in Hrun. unfold_M. by inversion Hrun; subst s'. }
    destruct (m_uidsToRows s !! u) as [r|] eqn:Hu.
    { rewrite userAddFinished_tracked in Hrun by (by exists r).
      by eapply reset_validity. }
    apply QHash_contains_false in Hu.
    unfold userAddFinished in Hrun.
    unfold mbind, M_bind, mret, M_ret, get_uidsToRows, get_users, emit,
      checked, set_users, set_uidsToRows in Hrun.
    rewrite Hu in Hrun. cbn [negb m_users with_signal] in Hrun.
    unfold QVector_insert in Hrun.
    destruct ((0 <=? count (m_users s) - 1)
              && (count (m_users s) - 1 <=? count (m_users s))) eqn:Hin; [|done].
    apply andb_true_iff in Hin as [Hlo _]. apply Z.leb_le in Hlo.
    eapply reset_validity; [exact Hrun|].
    cbn [m_users with_signal with_uidsToRows with_users].
    destruct (m_users s) as [|x0 l0] eqn:Hl using rev_ind;
      [unfold count in Hlo; cbn in Hlo; lia|].
    clear IHl0. unfold count. rewrite length_app. cbn [length].
    replace (Z.to_nat (Z.of_nat (length l0 + 1) - 1)) with (length l0) by lia.
    rewrite take_app_length, drop_app_length.
    apply placeholder_last_insert_valid; [|by left|done].
    destruct Hknown as [i Hi]. unfold UserInfo_of_uid. by rewrite Hi.
  - (* onUserAdded *)
    destruct (m_uidsToRows s !! u) as [r|] eqn:Hu.
    { rewrite onUserAdded_tracked in Hrun by (by exists r).
      by inversion Hrun; subst s'. }
    destruct (isValid (UserInfo_of_uid os u)) eqn:Hv.
    2:{ rewrite onUserAdded_unknown in Hrun by done.
        by inversion Hrun; subst s'. }
    destruct (onUserAdded_fresh os u s Hu Hv)
      as (l0 & tl & Hl & _ & Htl & Hlen & Htr & Hrun').
    rewrite Hrun' in Hrun. inversion Hrun; subst s'. cbn.
    rewrite Hl in Hpl, Htr.
    apply placeholder_last_insert_valid; [done| |done].
    destruct tl as [|p [|q tl]]; cbn in Hlen; [|by left|lia].
    right. split; [done|]. rewrite app_nil_r in Htr.
    destruct (trailing_invalid l0); [|done]. by specialize (Htr eq_refl).
  - (* onUserModified *)
    unfold onUserModified in Hrun. unfold_M.
    destruct (QHash_contains u (m_uidsToRows s)); cbn in Hrun;
      [|by inversion Hrun; subst s'].
    unfold QVector_at, QVector_set in Hrun.
    destruct (in_range (QHash_value u (m_uidsToRows s)) (m_users s)); [|done].
    destruct (m_users s !! Z.to_nat (QHash_value u (m_uidsToRows s)))
      as [x|] eqn:Hx; [|done].
    destruct (String.eqb (name x) newName); cbn in Hrun;
      [by inversion Hrun; subst s'|].
    unfold index in Hrun. unfold_M. cbn in Hrun.
    destruct ((QHash_value u (m_uidsToRows s) <? 0)
              || (count (<[Z.to_nat (QHash_value u (m_uidsToRows s)) :=
                             setName newName x]> (m_users s))
                  <=? QHash_value u (m_uidsToRows s)) || false);
      inversion Hrun; subst s'; cbn; by apply (placeholder_last_set _ _ x).
  - (* onUserRemoved *)
    destruct (m_uidsToRows s !! u) as [r|] eqn:Hu.
    2:{ rewrite onUserRemoved_untracked in Hrun by done.
        by inversion Hrun; subst s'. }
    rewrite (onUserRemoved_tracked u r s Hu) in Hrun.
    unfold QVector_remove in Hrun.
    destruct (in_range r (m_users s)) eqn:Hin; [|done].
    inversion Hrun; subst s'. cbn.
    apply placeholder_last_delete; [|done].
    unfold in_range, count in *. apply andb_true_iff in Hin as [Hlo Hhi].
    apply Z.leb_le in Hlo. apply Z.ltb_lt in Hhi. lia.
  - (* onCurrentUserChangeFailed *)
    unfold onCurrentUserChangeFailed in Hrun. unfold_M.
    destruct (QHash_contains u (m_uidsToRows s));
      by inversion Hrun; subst s'.
Qed.
End PlaceholderLast.

(** ** The constructor *)

Section Construction.

Lemma inverse_append_valid l m x :
  inverse l m → m !! uid x = None → isValid x = true →
  inverse (l ++ [x]) (<[uid x := count (l ++ [x]) - 1]> m).
Proof.
  intros Hinv Hnone Hv.
  replace (count (l ++ [x]) - 1) with (Z.of_nat (length l))
    by (unfold count; rewrite length_app; cbn; lia).
  apply inverse_insert; try done.
  - by rewrite app_nil_r.
  - intros y Hy. by apply elem_of_nil in Hy.
Qed.

Lemma inverse_tracked_uid l m u r :
  inverse l m → m !! u = Some r → u ∈ uid <$> l.
Proof.
  intros Hinv Hu. apply Hinv in Hu as (_ & x & Hx & _ & <-).
  apply list_elem_of_fmap_2. by eapply list_elem_of_lookup_2.
Qed.

Lemma all_valid_not_trailing (l : list UserInfo) :
  (∀ x, x ∈ l → isValid x = true) → trailing_invalid l = false.
Proof.
  intros Hall. unfold trailing_invalid.
  destruct (last l) as [x|] eqn:Hlast; [|done].
  rewrite last_lookup in Hlast. apply list_elem_of_lookup_2 in Hlast.
  by rewrite (Hall x Hlast).
Qed.

Lemma construct_loop (f : string → UserInfo) (s0 : UserModel) (gr_mem : list string) :
  m_users s0 = [] → m_uidsToRows s0 = ∅ →
  NoDup (uid <$> filter (λ x, isValid x = true) (f <$> gr_mem)) →
  let s := foldl (λ s n, append_user (f n) s) s0 gr_mem in
  m_users s = filter (λ x, isValid x = true) (f <$> gr_mem)
  ∧ inverse (m_users s) (m_uidsToRows s)
  ∧ m_dBusInterface s = m_dBusInterface s0
  ∧ asyncCalls s = asyncCalls s0
  ∧ emitted s = emitted s0.
Proof.
  intros Hrows Hidx. induction gr_mem as [|n gr_mem IH] using rev_ind; intros Hnd s.
  - subst s. cbn [foldl fmap list_fmap]. rewrite filter_nil.
    split; [done|]. split; [|done]. rewrite Hrows, Hidx. intros u r. split.
    + intros Hlk. by rewrite lookup_empty in Hlk.
    + intros (_ & x & Hx & _). by rewrite lookup_nil in Hx.
  - subst s. rewrite foldl_snoc. rewrite fmap_app, filter_app in Hnd |- *.
    rewrite fmap_app in Hnd. apply NoDup_app in Hnd as (Hnd & Hdisj & _).
    destruct (IH Hnd) as (Husers & Hinv & Hif & Hcalls & Hem). clear IH.
    set (s := foldl (λ s n, append_user (f n) s) s0 gr_mem) in *.
    unfold append_user. cbn [fmap list_fmap].
    destruct (isValid (f n)) eqn:Hv.
    + rewrite filter_cons_True, filter_nil by done.
      cbn [m_users m_uidsToRows m_dBusInterface asyncCalls emitted
           with_users with_uidsToRows].
      rewrite <- Husers. split; [done|]. split; [|done].
      apply inverse_append_valid; [done| |done].
      destruct (m_uidsToRows s !! uid (f n)) as [r|] eqn:Hlk; [|done].
      exfalso. apply (inverse_tracked_uid _ _ _ _ Hinv) in Hlk.
      rewrite Husers in Hlk. apply (Hdisj _ Hlk).
      change (f <$> [n]) with [f n].
      rewrite filter_cons_True, filter_nil by done. cbn. by left.
    + rewrite filter_cons_False, filter_nil, app_nil_r by congruence.
      split; [done|]. split; [done|]. done.
Qed.

(** X1. The constructor, given the members of the users group, keeps the valid
    accounts in the order of the group; when their uids are pairwise
    different, the uid index it builds is the inverse of the rows, every
    row is at the position the index gives for its uid, and there is no
    placeholder. Nothing is issued or emitted. *)
Theorem UserModel_new_index_inverse (registered : bool)
    (getpwnam : string → option N) (os : OS) (gr_mem : list string) :
  NoDup (uid <$> filter (λ x, isValid x = true)
                        (UserInfo_of_name getpwnam os <$> gr_mem)) →
  ∃ s, UserModel_new registered getpwnam os (Some gr_mem) = Some s
       ∧ m_users s = filter (λ x, isValid x = true)
                            (UserInfo_of_name getpwnam os <$> gr_mem)
       ∧ index_inverse s
       ∧ placeholder_last (m_users s)
       ∧ placeholder s = Some (false, s)
       ∧ (∀ i x, m_users s !! i = Some x →
            m_uidsToRows s !! uid x = Some (Z.of_nat i))
       ∧ m_dBusInterface s = registered
       ∧ asyncCalls s = [] ∧ emitted s = [].
Proof.
  intros Hnd. unfold UserModel_new.
  pose proof (construct_loop (UserInfo_of_name getpwnam os)
                {| m_users := []; m_uidsToRows := ∅; m_dBusInterface := registered;
                   asyncCalls := []; emitted := [] |} gr_mem eq_refl eq_refl Hnd)
    as Hloop.
  cbv zeta in Hloop.
  set (s := foldl (λ s n, append_user (UserInfo_of_name getpwnam os n) s) _ gr_mem) in *.
  destruct Hloop as (Husers & Hinv & Hif & Hcalls & Hem).
  exists s. split; [reflexivity|].
  assert (Hall : ∀ x, x ∈ m_users s → isValid x = true).
  { intros x Hx. rewrite Husers in Hx. by apply list_elem_of_filter in Hx as [? _]. }
  split; [exact Husers|]. split; [exact Hinv|].
  split.
  { intros i x Hx Hxv. apply list_elem_of_lookup_2 in Hx. apply Hall in Hx. congruence. }
  split.
  { rewrite placeholder_run. by rewrite all_valid_not_trailing. }
  split; [|done].
  intros i x Hx. apply Hinv. split; [lia|]. exists x. rewrite Nat2Z.id.
  repeat split; [done|]. apply Hall. by eapply list_elem_of_lookup_2.
Qed.
End Construction.

Lemma UserModel_new_index_inverse_witness :
  ∃ s, UserModel_new true
         (λ n, if String.eqb n "alice" then Some 1000%N
               else if String.eqb n "bob" then Some 1001%N
               else if String.eqb n "ghost" then Some 4242%N else None)
         sample_os (Some ["alice"; "nobody"; "ghost"; "bob"]) = Some s
       ∧ m_users s = [committed 1000 "alice"; committed 1001 "bob"]
       ∧ index_inverse s.
Proof.
  destruct (UserModel_new_index_inverse true
              (λ n, if String.eqb n "alice" then Some 1000%N
                    else if String.eqb n "bob" then Some 1001%N
                    else if String.eqb n "ghost" then Some 4242%N else None)
              sample_os ["alice"; "nobody"; "ghost"; "bob"])
    as (s & Hnew & Husers & Hinv & _).
  - apply (bool_decide_unpack _). vm_compute. reflexivity.
  - exists s. split; [exact Hnew|]. split; [|exact Hinv].
    rewrite Husers. vm_compute. reflexivity.
Defined.

(** ** The placeholder toggle *)

Section Toggle.

Lemma trailing_invalid_snoc (l : list UserInfo) p :
  trailing_invalid (l ++ [p]) = negb (isValid p).
Proof. unfold trailing_invalid. by rewrite last_snoc. Qed.

Lemma trailing_invalid_split (l : list UserInfo) :
  trailing_invalid l = true → ∃ l' p, l = l' ++ [p] ∧ isValid p = false.
Proof.
  unfold trailing_invalid. destruct (last l) as [p|] eqn:Hlast; [|done].
  intros Hp. apply last_Some in Hlast as [l' ->]. exists l', p.
  split; [done|]. by destruct (isValid p).
Qed.

Lemma inverse_append_invalid l m p :
  isValid p = false → inverse l m → inverse (l ++ [p]) m.
Proof.
  intros Hp Hinv u r. rewrite (Hinv u r). split.
  - intros (Hr & x & Hx & Hv & Hu). split; [done|]. exists x.
    split; [|done]. rewrite lookup_app_l; [done|]. by eapply lookup_lt_Some.
  - intros (Hr & x & Hx & Hv & Hu). split; [done|]. exists x. split; [|done].
    destruct (decide (Z.to_nat r < length l)%nat) as [Hlt|Hge].
    + by rewrite lookup_app_l in Hx.
    + rewrite lookup_app_r in Hx by lia.
      apply list_elem_of_lookup_2, list_elem_of_singleton in Hx. congruence.
Qed.

Lemma inverse_remove_invalid l m p :
  isValid p = false → inverse (l ++ [p]) m → inverse l m.
Proof.
  intros Hp Hinv u r. rewrite (Hinv u r). split.
  - intros (Hr & x & Hx & Hv & Hu). split; [done|]. exists x. split; [|done].
    destruct (decide (Z.to_nat r < length l)%nat) as [Hlt|Hge].
    + by rewrite lookup_app_l in Hx.
    + rewrite lookup_app_r in Hx by lia.
      apply list_elem_of_lookup_2, list_elem_of_singleton in Hx. congruence.
  - intros (Hr & x & Hx & Hv & Hu). split; [done|]. exists x.
    split; [|done]. rewrite lookup_app_l; [done|]. by eapply lookup_lt_Some.
Qed.

Lemma placeholder_last_init (l : list UserInfo) p :
  placeholder_last (l ++ [p]) → ∀ x, x ∈ l → isValid x = true.
Proof.
  intros Hpl x Hx. apply list_elem_of_lookup_1 in Hx as [i Hi].
  destruct (isValid x) eqn:Hv; [done|].
  pose proof (lookup_lt_Some _ _ _ Hi) as Hlt.
  specialize (Hpl i x). rewrite lookup_app_l, length_app in Hpl by done.
  specialize (Hpl Hi Hv). cbn in Hpl. lia.
Qed.

Lemma setPlaceholder_same (value : bool) (s : UserModel) :
  trailing_invalid (m_users s) = value → setPlaceholder value s = Some (tt, s).
Proof.
  intros Htr. unfold setPlaceholder. unfold mbind, M_bind.
  rewrite placeholder_run, Htr. by rewrite eqb_reflx.
Qed.

Lemma setPlaceholder_append (s : UserModel) :
  trailing_invalid (m_users s) = false →
  setPlaceholder true s =
    Some (tt, with_signal placeholderChanged
                (with_signal endInsertRows
                   (with_users (m_users s ++ [UserInfo_placeholder])
                      (with_signal (beginInsertRows (count (m_users s))
                                                    (count (m_users s))) s)))).
Proof.
  intros Htr. unfold setPlaceholder. unfold mbind, M_bind.
  rewrite placeholder_run, Htr. done.
Qed.

Lemma setPlaceholder_remove (s : UserModel) l p :
  m_users s = l ++ [p] → isValid p = false →
  setPlaceholder false s =
    Some (tt, with_signal placeholderChanged
                (with_signal endRemoveRows
                   (with_users l
                      (with_signal (beginRemoveRows (count (m_users s) - 1)
                                                    (count (m_users s) - 1)) s)))).
Proof.
  intros Hl Hp. unfold setPlaceholder. unfold mbind, M_bind.
  rewrite placeholder_run, Hl, trailing_invalid_snoc, Hp. cbn [negb Bool.eqb].
  unfold_M. cbn [m_users with_signal]. rewrite Hl.
  unfold QVector_remove.
  rewrite in_range_true by (unfold count; rewrite length_app; cbn; lia).
  replace (Z.to_nat (count (l ++ [p]) - 1)) with (length l)
    by (unfold count; rewrite length_app; cbn; lia).
  rewrite delete_middle, app_nil_r. done.
Qed.

Lemma setPlaceholder_cases (value : bool) (s : UserModel) :
  placeholder_last (m_users s) →
  ∃ s', setPlaceholder value s = Some (tt, s')
        ∧ placeholder s' = Some (value, s')
        ∧ setPlaceholder value s' = Some (tt, s')
        ∧ filter (λ x, isValid x = true) (m_users s')
          = filter (λ x, isValid x = true) (m_users s)
        ∧ m_uidsToRows s' = m_uidsToRows s
        ∧ asyncCalls s' = asyncCalls s
        ∧ placeholder_last (m_users s')
        ∧ (index_inverse s → index_inverse s').
Proof.
  intros Hpl.
  destruct (trailing_invalid (m_users s)) eqn:Htr, value.
  - exists s. rewrite setPlaceholder_same by done. rewrite placeholder_run, Htr.
    repeat (split; [done|]). done.
  - destruct (trailing_invalid_split _ Htr) as (l & p & Hl & Hp).
    rewrite (setPlaceholder_remove s l p Hl Hp). eexists. split; [reflexivity|].
    pose proof Hpl as Hall. rewrite Hl in Hall.
    pose proof (placeholder_last_init _ _ Hall) as Hvalid.
    assert (trailing_invalid l = false) as Htr' by (by apply all_valid_not_trailing).
    rewrite placeholder_run, setPlaceholder_same by done.
    cbn [m_users m_uidsToRows asyncCalls with_signal with_users].
    rewrite Htr', Hl, filter_app, filter_cons_False, filter_nil, app_nil_r
      by congruence.
    split; [done|]. split; [done|]. split; [done|]. split; [done|].
    split; [done|]. split.
    + intros i x Hx Hxv. apply list_elem_of_lookup_2, Hvalid in Hx. congruence.
    + unfold index_inverse. cbn. rewrite Hl. by apply inverse_remove_invalid.
  - rewrite setPlaceholder_append by done. eexists. split; [reflexivity|].
    rewrite placeholder_run, setPlaceholder_same
      by (cbn; by rewrite trailing_invalid_snoc).
    cbn [m_users m_uidsToRows asyncCalls with_signal with_users].
    rewrite trailing_invalid_snoc, filter_app, filter_cons_False, filter_nil,
      app_nil_r by done.
    split; [done|]. split; [done|]. split; [done|]. split; [done|].
    split; [done|]. split.
    + by apply placeholder_last_append.
    + unfold index_inverse. cbn. by apply inverse_append_invalid.
  - exists s. rewrite setPlaceholder_same by done. rewrite placeholder_run, Htr.
    repeat (split; [done|]). done.
Qed.

(** X2. On a cache in which an invalid row can only be the last one,
    setPlaceholder(value) always completes, and afterwards placeholder()
    answers [value]; a second call with the same value changes nothing.
    The valid rows and the uid index are as before, and the cache stays
    consistent. *)
Theorem setPlaceholder_establishes (value : bool) (s : UserModel) :
  placeholder_last (m_users s) →
  ∃ s', setPlaceholder value s = Some (tt, s')
        ∧ placeholder s' = Some (value, s')
        ∧ setPlaceholder value s' = Some (tt, s')
        ∧ filter (λ x, isValid x = true) (m_users s')
          = filter (λ x, isValid x = true) (m_users s)
        ∧ m_uidsToRows s' = m_uidsToRows s
        ∧ asyncCalls s' = asyncCalls s
        ∧ placeholder_last (m_users s')
        ∧ (index_inverse s → index_inverse s').
Proof. apply setPlaceholder_cases. Qed.

(** X3. Requesting the placeholder on a cache without one and dropping it again
    gives back the rows and the uid index as they were; the observers are
    told of one inserted and one removed row at the old row count and of
    two placeholder changes. *)
Theorem setPlaceholder_round_trip (s : UserModel) :
  trailing_invalid (m_users s) = false →
  ∃ s', (setPlaceholder true ;; setPlaceholder false) s = Some (tt, s')
        ∧ m_users s' = m_users s
        ∧ m_uidsToRows s' = m_uidsToRows s
        ∧ asyncCalls s' = asyncCalls s
        ∧ emitted s' = emitted s ++
            [beginInsertRows (count (m_users s)) (count (m_users s));
             endInsertRows; placeholderChanged;
             beginRemoveRows (count (m_users s)) (count (m_users s));
             endRemoveRows; placeholderChanged].
Proof.
  intros Htr. unfold mbind at 1. unfold M_bind.
  rewrite setPlaceholder_append by done.
  rewrite (setPlaceholder_remove _ (m_users s) UserInfo_placeholder) by done.
  eexists. split; [reflexivity|].
  cbn [m_users m_uidsToRows asyncCalls emitted with_signal with_users].
  repeat split.
  replace (count (m_users s ++ [UserInfo_placeholder]) - 1) with (count (m_users s))
    by (unfold count; rewrite length_app; cbn; lia).
  by rewrite <- !app_assoc.
Qed.
End Toggle.

Lemma setPlaceholder_establishes_witness :
  ∃ s', setPlaceholder false two_users_and_carol = Some (tt, s')
        ∧ placeholder s' = Some (false, s')
        ∧ m_uidsToRows s' = m_uidsToRows two_users_and_carol.
Proof.
  destruct (setPlaceholder_establishes false two_users_and_carol)
    as (s' & Hrun & Hpost & _ & _ & Hidx & _).
  - intros i x Hx Hv.
    destruct i as [|[|[|i]]]; cbn in Hx; inversion Hx; subst x;
      cbn in Hv; try discriminate Hv. reflexivity.
  - exists s'. split; [exact Hrun|]. split; [exact Hpost | exact Hidx].
Defined.

Lemma setPlaceholder_round_trip_witness :
  ∃ s', (setPlaceholder true ;; setPlaceholder false) two_users = Some (tt, s')
        ∧ m_users s' = m_users two_users
        ∧ m_uidsToRows s' = m_uidsToRows two_users.
Proof.
  destruct (setPlaceholder_round_trip two_users eq_refl)
    as (s' & Hrun & Husers & Hidx & _).
  exists s'. split; [exact Hrun|]. split; [exact Husers | exact Hidx].
Defined.

(** ** Actions that keep the rows in place *)

Section LocalActions.
Context `{Declarations}.

Lemma rows_edited_refl (l : list UserInfo) : rows_edited l l.
Proof. split; [done|]. intros i x Hx. by exists x. Qed.

Lemma rows_edited_trans (l1 l2 l3 : list UserInfo) :
  rows_edited l1 l2 → rows_edited l2 l3 → rows_edited l1 l3.
Proof.
  intros [Hlen12 H12] [Hlen23 H23]. split; [congruence|].
  intros i x Hx. destruct (H12 i x Hx) as (y & Hy & Hyu & Hyv).
  destruct (H23 i y Hy) as (z & Hz & Hzu & Hzv).
  exists z. repeat split; congruence.
Qed.

Lemma rows_edited_set (l : list UserInfo) i x y :
  l !! i = Some x → uid y = uid x → isValid y = isValid x →
  rows_edited l (<[i := y]> l).
Proof.
  intros Hx Hu Hv. split; [by rewrite length_insert|].
  intros j z Hz. destruct (decide (i = j)) as [->|Hne].
  - exists y. rewrite list_lookup_insert_eq by (by eapply lookup_lt_Some).
    repeat split; congruence.
  - exists z. by rewrite list_lookup_insert_ne.
Qed.

Lemma same_rows_refl (s : UserModel) : same_rows s s.
Proof. split; [done|apply rows_edited_refl]. Qed.

Lemma same_rows_trans (s1 s2 s3 : UserModel) :
  same_rows s1 s2 → same_rows s2 s3 → same_rows s1 s3.
Proof.
  intros [Hi12 Hr12] [Hi23 Hr23]. split; [congruence|].
  by eapply rows_edited_trans.
Qed.

Lemma inverse_rows_edited l l' m :
  rows_edited l l' → inverse l m → inverse l' m.
Proof.
  intros [Hlen Hrows] Hinv u r. rewrite (Hinv u r). split.
  - intros (Hr & x & Hx & Hv & Hu). split; [done|].
    destruct (Hrows _ _ Hx) as (y & Hy & Hyu & Hyv).
    exists y. repeat split; congruence.
  - intros (Hr & y & Hy & Hv & Hu). split; [done|].
    destruct (lookup_lt_is_Some_2 l (Z.to_nat r)) as [x Hx].
    { rewrite <- Hlen. by eapply lookup_lt_Some. }
    destruct (Hrows _ _ Hx) as (y' & Hy' & Hyu & Hyv).
    exists x. repeat split; congruence.
Qed.

Lemma placeholder_last_rows_edited l l' :
  rows_edited l l' → placeholder_last l → placeholder_last l'.
Proof.
  intros [Hlen Hrows] Hpl i y Hy Hv. rewrite Hlen.
  destruct (lookup_lt_is_Some_2 l i) as [x Hx].
  { rewrite <- Hlen. by eapply lookup_lt_Some. }
  destruct (Hrows _ _ Hx) as (y' & Hy' & Hyu & Hyv).
  apply (Hpl i x Hx). congruence.
Qed.

Lemma consistent_same_rows (s s' : UserModel) :
  same_rows s s' → consistent s → consistent s'.
Proof.
  intros [Hidx Hrows] [Hinv Hpl]. split.
  - unfold index_inverse in *. rewrite Hidx. by eapply inverse_rows_edited.
  - by eapply placeholder_last_rows_edited.
Qed.

Lemma reset_same_rows (os : OS) r (s : UserModel) :
  ∃ s', reset os r s = Some (tt, s') ∧ same_rows s s'
        ∧ asyncCalls s' = asyncCalls s.
Proof.
  destruct (decide (0 ≤ r < count (m_users s))) as [Hr|Hr].
  - destruct (QVector_at_Some r (m_users s) Hr) as (x & _ & Hx).
    rewrite (reset_in_range os s r x Hr Hx). eexists. split; [reflexivity|].
    split; [|done]. split; [done|]. cbn.
    apply (rows_edited_set _ _ x); [done|..]; apply UserInfo_reset_identity.
  - rewrite reset_out_of_range by lia. exists s.
    split; [done|]. split; [apply same_rows_refl|done].
Qed.

Lemma setData_same_rows idx value role (s : UserModel) :
  ∃ b s', setData idx value role s = Some (b, s') ∧ same_rows s s'
          ∧ (b = false → s' = s).
Proof.
  destruct (setData_guard_cases s idx) as [Hout|[Hr Hc]].
  { exists false, s. rewrite setData_out_of_range by done.
    split; [done|]. split; [apply same_rows_refl|done]. }
  unfold setData. unfold_M. rewrite setData_guard_false by done.
  destruct (QVector_at_Some (row idx) (m_users s) Hr) as (x & -> & Hx).
  destruct (role =? NameRole).
  2:{ exists false, s. split; [done|]. split; [apply same_rows_refl|done]. }
  destruct (String.eqb (toString value) EmptyString
            || String.eqb (toString value) (name x)).
  { exists false, s. split; [done|]. split; [apply same_rows_refl|done]. }
  unfold QVector_set. rewrite in_range_true by done.
  cbn [isValid setName].
  destruct (isValid x); (eexists true, _; split; [reflexivity|]);
    (split; [|done]); (split; [done|]); cbn;
    by apply (rows_edited_set _ _ x).
Qed.

Lemma createUser_same_rows (s : UserModel) :
  ∃ s', createUser s = Some (tt, s')
        ∧ m_users s' = m_users s ∧ m_uidsToRows s' = m_uidsToRows s
        ∧ emitted s' = emitted s.
Proof.
  unfold createUser. unfold mbind, M_bind. rewrite placeholder_run.
  destruct (trailing_invalid (m_users s)) eqn:Htr; cbn [negb]; [|by exists s].
  destruct (trailing_invalid_split _ Htr) as (l & p & Hl & Hp).
  assert (last (m_users s) = Some p) as Hlast by (by rewrite Hl, last_snoc).
  unfold_M. destruct (String.eqb (name p) EmptyString) eqn:Hn.
  - exists s. by rewrite Hlast, Hn.
  - eexists. rewrite Hlast, Hn. split; [reflexivity|done].
Qed.

Lemma removeUser_same_rows r (s : UserModel) :
  ∃ s', removeUser r s = Some (tt, s')
        ∧ m_users s' = m_users s ∧ m_uidsToRows s' = m_uidsToRows s
        ∧ emitted s' = emitted s.
Proof.
  unfold removeUser. unfold_M.
  destruct (decide (0 ≤ r < count (m_users s))) as [Hr|Hr].
  - rewrite out_of_range_false by done.
    destruct (QVector_at_Some r (m_users s) Hr) as (x & -> & Hx).
    destruct (isValid x); cbn [negb]; [|by exists s].
    eexists. split; [reflexivity|]. done.
  - rewrite out_of_range_true by lia. by exists s.
Qed.

Lemma same_rows_fields (s s' : UserModel) :
  m_users s' = m_users s → m_uidsToRows s' = m_uidsToRows s → same_rows s s'.
Proof.
  intros Hu Hi. split; [done|]. rewrite Hu. apply rows_edited_refl.
Qed.

Lemma local_action_same_rows (a : Action) (s : UserModel) :
  local_action a → ∃ s', run_action a s = Some (tt, s') ∧ same_rows s s'.
Proof.
  intros Hlocal.
  destruct a as [op|idx value role|r|os reply r|reply r]; cbn [run_action].
  - destruct op as [value| |os reply|os u|u newName|u|u];
      cbn [local_action] in Hlocal; try done; cbn [perform].
    + destruct (createUser_same_rows s) as (s' & Hrun & Hu & Hi & _).
      exists s'. split; [done|]. by apply same_rows_fields.
    + destruct reply as [e|u]; [|done]. eexists. split; [reflexivity|].
      by apply same_rows_fields.
    + unfold onCurrentUserChangeFailed. unfold_M.
      destruct (QHash_contains u (m_uidsToRows s));
        (eexists; split; [reflexivity|]); by apply same_rows_fields.
  - destruct (setData_same_rows idx value role s) as (b & s' & Hrun & Hsame & _).
    exists s'. unfold mbind, M_bind, mret, M_ret. by rewrite Hrun.
  - destruct (removeUser_same_rows r s) as (s' & Hrun & Hu & Hi & _).
    exists s'. split; [done|]. by apply same_rows_fields.
  - destruct reply as [e|[]]; cbn [userModifyFinished].
    + unfold mbind, M_bind, emit.
      destruct (reset_same_rows os r
                  (with_signal (userModifyFailed r (getErrorType e)) s))
        as (s' & Hrun & Hsame & _).
      exists s'. split; [done|]. done.
    + exists s. split; [done|apply same_rows_refl].
  - destruct reply as [e|[]]; cbn [userRemoveFinished].
    + eexists. split; [reflexivity|]. by apply same_rows_fields.
    + exists s. split; [done|apply same_rows_refl].
Qed.

(** X4. Edits of a field, createUser, removeUser, the replies to modifyUser and
    removeUser, the error reply to addUser and the currentUserChangeFailed
    broadcast always complete, and they never insert, remove or move a row,
    never change the uid or the validity of a row, and never touch the uid
    index. *)
Theorem local_actions_keep_rows (a : Action) (s : UserModel) :
  local_action a →
  ∃ s', run_action a s = Some (tt, s')
        ∧ m_uidsToRows s' = m_uidsToRows s
        ∧ length (m_users s') = length (m_users s)
        ∧ uid <$> m_users s' = uid <$> m_users s
        ∧ isValid <$> m_users s' = isValid <$> m_users s.
Proof.
  intros Hlocal.
  destruct (local_action_same_rows a s Hlocal) as (s' & Hrun & Hidx & Hlen & Hrows).
  exists s'. split; [done|]. split; [done|]. split; [done|].
  split; apply list_eq; intros i; rewrite !list_lookup_fmap;
    (destruct (m_users s !! i) as [x|] eqn:Hx;
     [ destruct (Hrows i x Hx) as (y & -> & Hyu & Hyv); cbn; congruence
     | apply lookup_ge_None in Hx; rewrite <- Hlen in Hx;
       apply lookup_ge_None in Hx; by rewrite Hx ]).
Qed.
End LocalActions.

Lemma local_actions_keep_rows_witness :
  ∃ s', @run_action sample_declarations
          (act_setData {| row := 1; column := 0 |} (QVariant_string "robert") 258)
          two_users = Some (tt, s')
        ∧ m_uidsToRows s' = m_uidsToRows two_users
        ∧ uid <$> m_users s' = uid <$> m_users two_users.
Proof.
  destruct (@local_actions_keep_rows sample_declarations
              (act_setData {| row := 1; column := 0 |} (QVariant_string "robert") 258)
              two_users I)
    as (s' & Hrun & Hidx & _ & Huids & _).
  exists s'. split; [exact Hrun|]. split; [exact Hidx | exact Huids].
Defined.

(** ** The userModified broadcast *)

Section Modified.
Context `{Declarations}.

Lemma setName_same (n : string) x : name x = n → setName n x = x.
Proof. intros <-. by destruct x. Qed.

Lemma onUserModified_untracked u newName (s : UserModel) :
  m_uidsToRows s !! u = None → onUserModified u newName s = Some (tt, s).
Proof.
  intros Hu. apply QHash_contains_false in Hu.
  unfold onUserModified. unfold_M. by rewrite Hu.
Qed.

Lemma onUserModified_tracked u r x newName (s : UserModel) :
  m_uidsToRows s !! u = Some r →
  0 ≤ r < count (m_users s) →
  m_users s !! Z.to_nat r = Some x →
  onUserModified u newName s =
    Some (tt, if String.eqb (name x) newName then s
              else with_signal
                     (dataChanged {| row := r; column := 0 |}
                                  {| row := r; column := 0 |} [NameRole])
                     (with_users (<[Z.to_nat r := setName newName x]> (m_users s)) s)).
Proof.
  intros Hu Hr Hx. unfold onUserModified. unfold_M.
  unfold QHash_contains, QHash_value. rewrite Hu.
  cbn [negb default from_option id]. cbv zeta. unfold id.
  destruct (QVector_at_Some r (m_users s) Hr) as (y & -> & Hy).
  assert (y = x) as -> by congruence.
  destruct (String.eqb (name x) newName); cbn [negb]; [done|].
  unfold QVector_set. rewrite in_range_true by done.
  unfold index. unfold_M. cbn [m_users with_users].
  rewrite count_insert, out_of_range_false by done. done.
Qed.

(** X5. On a cache whose index is the inverse of its rows, userModified(uid,
    name) always completes: the valid row of that uid, and no other row,
    gets the name; the uid index, the number of rows and the issued calls
    are as before; exactly one dataChanged for the name role is emitted
    when the uid is tracked and the name of its row was different, and
    nothing otherwise; a second delivery of the same broadcast changes
    nothing. *)
Theorem onUserModified_renames_tracked_row (u : N) (newName : string) (s : UserModel) :
  index_inverse s →
  ∃ s', onUserModified u newName s = Some (tt, s')
        ∧ m_uidsToRows s' = m_uidsToRows s
        ∧ asyncCalls s' = asyncCalls s
        ∧ length (m_users s') = length (m_users s)
        ∧ (∀ i x, m_users s !! i = Some x →
             m_users s' !! i =
               Some (if decide (isValid x = true ∧ uid x = u)
                     then setName newName x else x))
        ∧ emitted s' = emitted s ++
            match m_uidsToRows s !! u with
            | Some r =>
                match m_users s !! Z.to_nat r with
                | Some x =>
                    if String.eqb (name x) newName then []
                    else [dataChanged {| row := r; column := 0 |}
                                      {| row := r; column := 0 |} [NameRole]]
                | None => []
                end
            | None => []
            end
        ∧ index_inverse s'
        ∧ onUserModified u newName s' = Some (tt, s').
Proof.
  intros Hinv. destruct (m_uidsToRows s !! u) as [r|] eqn:Hu.
  - pose proof (inverse_in_range _ _ _ _ Hinv Hu) as Hr.
    pose proof (proj1 (Hinv u r) Hu) as (_ & x & Hx & Hxv & Hxu).
    assert (Hrows : ∀ i y, m_users s !! i = Some y →
              <[Z.to_nat r := setName newName x]> (m_users s) !! i =
                Some (if decide (isValid y = true ∧ uid y = u)
                      then setName newName y else y)).
    { intros i y Hy. destruct (decide (i = Z.to_nat r)) as [->|Hne].
      - assert (y = x) as -> by congruence.
        rewrite list_lookup_insert_eq by (by eapply lookup_lt_Some).
        by rewrite decide_True.
      - rewrite list_lookup_insert_ne by done. rewrite Hy.
        rewrite decide_False; [done|]. intros [Hyv Hyu].
        assert (m_uidsToRows s !! u = Some (Z.of_nat i)) as Hi.
        { apply Hinv. split; [lia|]. exists y. by rewrite Nat2Z.id. }
        rewrite Hu in Hi. inversion Hi. lia. }
    rewrite (onUserModified_tracked u r x newName s Hu Hr Hx).
    destruct (String.eqb (name x) newName) eqn:Hn.
    + apply String.eqb_eq in Hn. exists s.
      rewrite (onUserModified_tracked u r x newName s Hu Hr Hx).
      rewrite (proj2 (String.eqb_eq _ _) Hn).
      split; [done|]. split; [done|]. split; [done|]. split; [done|].
      split; [|split; [|by split]].
      2:{ by rewrite Hx, (proj2 (String.eqb_eq _ _) Hn), app_nil_r. }
      intros i y Hy. rewrite <- (Hrows i y Hy).
      rewrite (setName_same newName x Hn). by rewrite list_insert_id.
    + eexists. split; [reflexivity|].
      cbn [m_users m_uidsToRows asyncCalls emitted with_signal with_users].
      split; [done|]. split; [done|]. split; [by rewrite length_insert|].
      split; [exact Hrows|].
      split; [by rewrite Hx, Hn|].
      split.
      * unfold index_inverse. cbn.
        eapply inverse_rows_edited; [|exact Hinv].
        by apply (rows_edited_set _ _ x).
      * rewrite (onUserModified_tracked u r (setName newName x) newName);
          cbn [m_users m_uidsToRows with_signal with_users name setName].
        -- by rewrite String.eqb_refl.
        -- done.
        -- by rewrite count_insert.
        -- apply list_lookup_insert_eq. by eapply lookup_lt_Some.
  - exists s. rewrite onUserModified_untracked by done.
    split; [done|]. split; [done|]. split; [done|]. split; [done|].
    split; [|split; [by rewrite app_nil_r|by split]].
    intros i y Hy. rewrite Hy. rewrite decide_False; [done|].
    intros [Hyv Hyu].
    assert (m_uidsToRows s !! u = Some (Z.of_nat i)) as Hi.
    { apply Hinv. split; [lia|]. exists y. by rewrite Nat2Z.id. }
    congruence.
Qed.
End Modified.

Lemma onUserModified_renames_tracked_row_witness :
  ∃ s', @onUserModified sample_declarations 1001 "robert" three_users = Some (tt, s')
        ∧ name <$> m_users s' !! 1%nat = Some "robert"
        ∧ m_uidsToRows s' = m_uidsToRows three_users
        ∧ emitted s' = [dataChanged {| row := 1; column := 0 |}
                                    {| row := 1; column := 0 |} [258]].
Proof.
  destruct (@onUserModified_renames_tracked_row sample_declarations 1001%N "robert"
              three_users three_users_index_inverse)
    as (s' & Hrun & Hidx & _ & _ & Hrows & Hem & _).
  exists s'. split; [exact Hrun|]. split; [|split; [exact Hidx|exact Hem]].
  rewrite (Hrows 1%nat (committed 1001 "bob") eq_refl). reflexivity.
Defined.

(** ** A user added and removed again *)

Section AddRemove.

Lemma renumber_below (r v : Z) : v < r → renumber r v = v.
Proof.
  intros Hv. unfold renumber.
  by replace (r <? v) with false by (symmetry; apply Z.ltb_ge; lia).
Qed.

(** X6. On a cache whose index is the inverse of its rows, the userAdded
    broadcast of an untracked uid followed by the userRemoved broadcast of
    the same uid gives back the rows and the uid index exactly as they
    were, whether or not the identity lookup knew the uid. *)
Theorem onUserAdded_then_onUserRemoved (os : OS) (u : N) (s : UserModel) :
  index_inverse s →
  m_uidsToRows s !! u = None →
  ∃ s', (onUserAdded os u ;; onUserRemoved u) s = Some (tt, s')
        ∧ m_users s' = m_users s
        ∧ m_uidsToRows s' = m_uidsToRows s
        ∧ asyncCalls s' = asyncCalls s.
Proof.
  intros Hinv Hu. unfold mbind at 1. unfold M_bind.
  destruct (isValid (UserInfo_of_uid os u)) eqn:Hv.
  2:{ rewrite onUserAdded_unknown by done. exists s.
      by rewrite onUserRemoved_untracked. }
  destruct (onUserAdded_fresh os u s Hu Hv)
    as (l0 & tl & Hl & Hr & Htl & _ & _ & ->).
  rewrite (onUserRemoved_tracked u (insert_row (m_users s)))
    by (cbn; apply lookup_insert_eq).
  cbn [m_users m_uidsToRows with_signal with_users with_uidsToRows].
  unfold QVector_remove. rewrite Hr.
  rewrite in_range_true by (unfold count; rewrite length_app; cbn; lia).
  rewrite Nat2Z.id, delete_middle.
  eexists. split; [reflexivity|].
  cbn [m_users m_uidsToRows asyncCalls with_signal with_users with_uidsToRows].
  split; [done|]. split; [|done].
  rewrite delete_insert_id by done.
  apply map_eq. intros u'. rewrite lookup_fmap.
  destruct (m_uidsToRows s !! u') as [v|] eqn:Hv'; [|done].
  cbn. f_equal. apply renumber_below.
  apply Hinv in Hv' as (Hv0 & y & Hy & Hyv & _). rewrite Hl in Hy.
  destruct (decide (Z.to_nat v < length l0)%nat) as [Hlt|Hge]; [lia|].
  rewrite lookup_app_r in Hy by lia.
  apply list_elem_of_lookup_2, Htl in Hy. congruence.
Qed.
End AddRemove.

Lemma two_users_and_carol_index_inverse : index_inverse two_users_and_carol.
Proof.
  exact (inverse_append_invalid (m_users two_users) (m_uidsToRows two_users)
           (setName "carol" UserInfo_placeholder) eq_refl two_users_index_inverse).
Qed.

Lemma onUserAdded_then_onUserRemoved_witness :
  ∃ s', (onUserAdded sample_os 1002 ;; onUserRemoved 1002) two_users_and_carol
        = Some (tt, s')
        ∧ m_users s' = m_users two_users_and_carol
        ∧ m_uidsToRows s' = m_uidsToRows two_users_and_carol.
Proof.
  destruct (onUserAdded_then_onUserRemoved sample_os 1002%N two_users_and_carol
              two_users_and_carol_index_inverse eq_refl)
    as (s' & Hrun & Husers & Hidx & _).
  exists s'. split; [exact Hrun|]. split; [exact Husers | exact Hidx].
Defined.

(** ** The add-user reply and the userAdded broadcast in either order *)

Section ReplyOrder.
Context `{Declarations}.

Lemma count_snoc {A} (l : list A) x : count (l ++ [x]) - 1 = Z.of_nat (length l).
Proof. unfold count. rewrite length_app. cbn. lia. Qed.

Lemma QVector_insert_before_last {A} (l0 : list A) z x :
  QVector_insert (Z.of_nat (length l0)) x (l0 ++ [z]) = Some (l0 ++ [x; z]).
Proof.
  unfold QVector_insert.
  assert ((0 <=? Z.of_nat (length l0))
          && (Z.of_nat (length l0) <=? count (l0 ++ [z])) = true) as ->.
  { apply andb_true_iff. split; apply Z.leb_le; [lia|].
    unfold count. rewrite length_app. lia. }
  by rewrite Nat2Z.id, take_app_length, drop_app_length.
Qed.

Lemma onUserAdded_before_placeholder (os : OS) u (s : UserModel) l0 p :
  m_users s = l0 ++ [p] → isValid p = false →
  m_uidsToRows s !! u = None → isValid (UserInfo_of_uid os u) = true →
  onUserAdded os u s = Some (tt, inserted_before_last os u l0 p s).
Proof.
  intros Hl Hp Hu Hv. apply QHash_contains_false in Hu.
  unfold onUserAdded. unfold mbind, M_bind, get_uidsToRows.
  rewrite Hu, Hv, placeholder_run. unfold_M.
  cbn [m_users with_signal]. rewrite Hl, trailing_invalid_snoc, Hp. cbn [negb].
  rewrite count_snoc, QVector_insert_before_last. done.
Qed.

Lemma userAddFinished_before_last (os : OS) u (s : UserModel) l0 z :
  m_users s = l0 ++ [z] → m_uidsToRows s !! u = None →
  userAddFinished os (reply_value u) s =
    reset os (count (l0 ++ [UserInfo_of_uid os u; z]) - 1)
          (inserted_before_last os u l0 z s).
Proof.
  intros Hl Hu. apply QHash_contains_false in Hu.
  unfold userAddFinished. unfold_M. rewrite Hu. cbn [negb].
  rewrite Hl, count_snoc, QVector_insert_before_last. done.
Qed.

Lemma userAddFinished_empty (os : OS) u (s : UserModel) :
  m_users s = [] → m_uidsToRows s !! u = None →
  userAddFinished os (reply_value u) s = None.
Proof.
  intros Hl Hu. apply QHash_contains_false in Hu.
  unfold userAddFinished. unfold_M. rewrite Hu. cbn [negb]. rewrite Hl. done.
Qed.

Lemma reset_after_insert (os : OS) u (s : UserModel) l0 z :
  ∃ s', reset os (count (l0 ++ [UserInfo_of_uid os u; z]) - 1)
              (inserted_before_last os u l0 z s) = Some (tt, s')
        ∧ m_users s' = l0 ++ [UserInfo_of_uid os u; UserInfo_reset os z]
        ∧ m_uidsToRows s' = <[u := Z.of_nat (length l0)]> (m_uidsToRows s)
        ∧ asyncCalls s' = asyncCalls s
        ∧ emitted s' = emitted s ++
            [beginInsertRows (Z.of_nat (length l0)) (Z.of_nat (length l0));
             endInsertRows;
             dataChanged {| row := Z.of_nat (length l0) + 1; column := 0 |}
                         {| row := Z.of_nat (length l0) + 1; column := 0 |} []].
Proof.
  assert (count (l0 ++ [UserInfo_of_uid os u; z]) - 1 = Z.of_nat (length l0) + 1)
    as -> by (unfold count; rewrite length_app; cbn; lia).
  rewrite (reset_in_range os _ _ z).
  - eexists. split; [reflexivity|]. cbn. repeat split.
    + replace (Z.to_nat (Z.of_nat (length l0) + 1)) with (length l0 + 1)%nat by lia.
      rewrite insert_app_r. by cbn.
    + by rewrite <- !app_assoc.
  - cbn. unfold count. rewrite length_app. cbn. lia.
  - cbn. replace (Z.to_nat (Z.of_nat (length l0) + 1)) with (length l0 + 1)%nat by lia.
    by rewrite lookup_app_r, Nat.add_sub_swap, Nat.sub_diag by lia.
Qed.

(** X7. While the placeholder is the last row, the userAdded broadcast and the
    success reply of addUser for the same untracked uid, known to the
    identity lookup, lead to the same model object in either order: the
    record of the uid sits at the placeholder's old position and is tracked
    there, and the placeholder, reset, is the last row. *)
Theorem reply_and_broadcast_commute (os : OS) (u : N) (s : UserModel) :
  trailing_invalid (m_users s) = true →
  m_uidsToRows s !! u = None →
  is_Some (os u) →
  ∃ s' l0 p,
    (onUserAdded os u ;; userAddFinished os (reply_value u)) s = Some (tt, s')
    ∧ (userAddFinished os (reply_value u) ;; onUserAdded os u) s = Some (tt, s')
    ∧ m_users s = l0 ++ [p]
    ∧ m_users s' = l0 ++ [UserInfo_of_uid os u; UserInfo_reset os p]
    ∧ m_uidsToRows s' = <[u := Z.of_nat (length l0)]> (m_uidsToRows s)
    ∧ asyncCalls s' = asyncCalls s.
Proof.
  intros Htr Hu [i Hi].
  destruct (trailing_invalid_split _ Htr) as (l0 & p & Hl & Hp).
  assert (Hv : isValid (UserInfo_of_uid os u) = true)
    by (unfold UserInfo_of_uid; by rewrite Hi).
  destruct (reset_after_insert os u s l0 p) as (s' & Hreset & Hrows & Hidx & Hcalls & _).
  exists s', l0, p. unfold mbind, M_bind.
  rewrite (onUserAdded_before_placeholder os u s l0 p Hl Hp Hu Hv).
  rewrite (userAddFinished_before_last os u s l0 p Hl Hu), Hreset.
  rewrite userAddFinished_tracked
    by (cbn; rewrite lookup_insert_eq; by eexists).
  rewrite onUserAdded_tracked by (rewrite Hidx, lookup_insert_eq; by eexists).
  split; [exact Hreset|]. by repeat split.
Qed.

(** X8. When the success reply of addUser for an untracked uid arrives after
    the placeholder has been dropped, the handler still inserts at
    count-1: on an empty cache the insert position is -1 and the vector's
    assertion fails; otherwise the new record goes in front of the last
    committed user, whose index entry is not moved, so that the new uid and
    that user's uid are both mapped to the same position and the index is
    no longer the inverse of the rows. *)
Theorem userAddFinished_after_placeholder_dropped (os : OS) (u : N) (s : UserModel) :
  m_uidsToRows s !! u = None →
  (m_users s = [] → userAddFinished os (reply_value u) s = None)
  ∧ (∀ l0 z, m_users s = l0 ++ [z] → isValid z = true → index_inverse s →
       ∃ s', userAddFinished os (reply_value u) s = Some (tt, s')
             ∧ m_users s' = l0 ++ [UserInfo_of_uid os u; UserInfo_reset os z]
             ∧ m_uidsToRows s' !! u = Some (Z.of_nat (length l0))
             ∧ m_uidsToRows s' !! uid z = Some (Z.of_nat (length l0))
             ∧ ¬ index_inverse s').
Proof.
  intros Hu. split; [intros Hl; by apply userAddFinished_empty|].
  intros l0 z Hl Hz Hinv.
  destruct (reset_after_insert os u s l0 z) as (s' & Hreset & Hrows & Hidx & _).
  exists s'. rewrite (userAddFinished_before_last os u s l0 z Hl Hu).
  split; [exact Hreset|]. split; [exact Hrows|].
  assert (m_uidsToRows s !! uid z = Some (Z.of_nat (length l0))) as Hzrow.
  { apply Hinv. split; [lia|]. exists z. rewrite Nat2Z.id, Hl.
    by rewrite list_lookup_middle. }
  assert (uid z ≠ u) as Hne by congruence.
  assert (m_uidsToRows s' !! u = Some (Z.of_nat (length l0))) as Hu'
    by (rewrite Hidx; apply lookup_insert_eq).
  assert (m_uidsToRows s' !! uid z = Some (Z.of_nat (length l0))) as Hz'
    by (rewrite Hidx, lookup_insert_ne by done; exact Hzrow).
  split; [exact Hu'|]. split; [exact Hz'|].
  intros Hinv'.
  apply Hinv' in Hu' as (_ & x & Hx & _ & Hxu).
  apply Hinv' in Hz' as (_ & x' & Hx' & _ & Hxu').
  congruence.
Qed.
End ReplyOrder.

Lemma reply_and_broadcast_commute_witness :
  ∃ s', (onUserAdded sample_os 1002 ;;
         @userAddFinished sample_declarations sample_os (reply_value 1002%N))
          two_users_and_carol = Some (tt, s')
        ∧ (@userAddFinished sample_declarations sample_os (reply_value 1002%N) ;;
           onUserAdded sample_os 1002) two_users_and_carol = Some (tt, s').
Proof.
  assert (Hknown : is_Some (sample_os 1002%N)) by (eexists; reflexivity).
  destruct (@reply_and_broadcast_commute sample_declarations sample_os 1002%N
              two_users_and_carol eq_refl eq_refl Hknown)
    as (s' & l0 & p & Hfirst & Hsecond & _).
  exists s'. split; [exact Hfirst | exact Hsecond].
Defined.

Lemma userAddFinished_after_placeholder_dropped_witness :
  ∃ s', @userAddFinished sample_declarations sample_os (reply_value 1002%N) two_users
        = Some (tt, s')
        ∧ m_uidsToRows s' !! 1002%N = Some 1
        ∧ m_uidsToRows s' !! 1001%N = Some 1
        ∧ ¬ index_inverse s'.
Proof.
  destruct (proj2 (@userAddFinished_after_placeholder_dropped sample_declarations
                     sample_os 1002%N two_users eq_refl)
              [committed 1000 "alice"] (committed 1001 "bob")
              eq_refl eq_refl two_users_index_inverse)
    as (s' & Hrun & _ & Hnew & Hold & Hbroken).
  exists s'. split; [exact Hrun|]. split; [exact Hnew|].
  split; [exact Hold | exact Hbroken].
Defined.

(** ** Consistency of the cache under every action *)

Section Consistency.
Context `{Declarations}.

Lemma onUserModified_same_rows u newName (s : UserModel) :
  index_inverse s →
  ∃ s', onUserModified u newName s = Some (tt, s') ∧ same_rows s s'.
Proof.
  intros Hinv. destruct (m_uidsToRows s !! u) as [r|] eqn:Hu.
  - pose proof (inverse_in_range _ _ _ _ Hinv Hu) as Hr.
    pose proof (proj1 (Hinv u r) Hu) as (_ & x & Hx & _).
    rewrite (onUserModified_tracked u r x newName s Hu Hr Hx).
    destruct (String.eqb (name x) newName).
    + exists s. split; [done|apply same_rows_refl].
    + eexists. split; [reflexivity|]. split; [done|]. cbn.
      by apply (rows_edited_set _ _ x).
  - exists s. rewrite onUserModified_untracked by done.
    split; [done|apply same_rows_refl].
Qed.

Lemma userAddFinished_in_time (os : OS) u (s : UserModel) :
  consistent s →
  is_Some (m_uidsToRows s !! u)
  ∨ (trailing_invalid (m_users s) = true ∧ is_Some (os u)) →
  ∃ s', userAddFinished os (reply_value u) s = Some (tt, s') ∧ consistent s'.
Proof.
  intros [Hinv Hpl] Htime.
  destruct (m_uidsToRows s !! u) as [r|] eqn:Hu.
  - rewrite userAddFinished_tracked by (rewrite Hu; by eexists).
    destruct (reset_same_rows os (count (m_users s) - 1) s) as (s' & Hrun & Hsame & _).
    exists s'. split; [done|]. by apply (consistent_same_rows s).
  - destruct Htime as [[r Hr]|[Htr Hknown]]; [done|].
    destruct (trailing_invalid_split _ Htr) as (l0 & p & Hl & Hp).
    assert (isValid (UserInfo_of_uid os u) = true
            ∧ uid (UserInfo_of_uid os u) = u) as [Hv Hid].
    { destruct Hknown as [i Hi]. unfold UserInfo_of_uid. by rewrite Hi. }
    destruct (reset_after_insert os u s l0 p) as (s' & Hreset & Hrows & Hidx & _).
    exists s'. rewrite (userAddFinished_before_last os u s l0 p Hl Hu).
    split; [exact Hreset|].
    assert (Hinv1 : inverse (l0 ++ [UserInfo_of_uid os u; p])
                            (<[u := Z.of_nat (length l0)]> (m_uidsToRows s))).
    { unfold index_inverse in Hinv. rewrite Hl in Hinv.
      apply (inverse_insert l0 [p]); try done.
      intros y Hy. apply list_elem_of_singleton in Hy. by subst. }
    assert (Hedit : rows_edited (l0 ++ [UserInfo_of_uid os u; p]) (m_users s')).
    { rewrite Hrows.
      replace (l0 ++ [UserInfo_of_uid os u; UserInfo_reset os p])
        with (<[(length l0 + 1)%nat := UserInfo_reset os p]>
                (l0 ++ [UserInfo_of_uid os u; p]))
        by (rewrite insert_app_r; by cbn).
      apply (rows_edited_set _ _ p).
      - by rewrite lookup_app_r, Nat.add_sub_swap, Nat.sub_diag by lia.
      - apply UserInfo_reset_identity.
      - apply UserInfo_reset_identity. }
    split.
    + unfold index_inverse. rewrite Hidx. by eapply inverse_rows_edited.
    + eapply placeholder_last_rows_edited; [exact Hedit|].
      rewrite Hl in Hpl.
      apply (placeholder_last_insert_valid l0 [p]); [done|by left|done].
Qed.

Lemma run_action_consistent (a : Action) (s : UserModel) :
  consistent s → reply_in_time a s →
  ∃ s', run_action a s = Some (tt, s') ∧ consistent s'.
Proof.
  intros Hcons Htime.
  assert (Hlocal : local_action a →
            ∃ s', run_action a s = Some (tt, s') ∧ consistent s').
  { intros Hl. destruct (local_action_same_rows a s Hl) as (s' & Hrun & Hsame).
    exists s'. split; [done|]. by apply (consistent_same_rows s). }
  destruct a as [op|idx value role|r|os reply r|reply r];
    try (by apply Hlocal).
  destruct op as [value| |os reply|os u|u newName|u|u]; try (by apply Hlocal).
  - destruct Hcons as [Hinv Hpl].
    destruct (setPlaceholder_cases value s Hpl)
      as (s' & Hrun & _ & _ & _ & _ & _ & Hpl' & Hinv').
    exists s'. split; [done|]. split; [by apply Hinv'|done].
  - destruct reply as [e|u]; [by apply Hlocal|].
    by apply userAddFinished_in_time.
  - destruct Hcons as [Hinv Hpl].
    destruct (deliver_keeps_index_inverse (userAdded os u) s Hinv) as (s' & Hrun & Hinv').
    exists s'. split; [done|]. split; [done|].
    by apply (perform_keeps_placeholder_last (op_onUserAdded os u) s s').
  - destruct Hcons as [Hinv Hpl].
    destruct (onUserModified_same_rows u newName s Hinv) as (s' & Hrun & Hsame).
    exists s'. split; [done|]. by apply (consistent_same_rows s).
  - destruct Hcons as [Hinv Hpl].
    destruct (deliver_keeps_index_inverse (userRemoved u) s Hinv) as (s' & Hrun & Hinv').
    exists s'. split; [done|]. split; [done|].
    by apply (perform_keeps_placeholder_last (op_onUserRemoved u) s s').
Qed.

(** X9. From a consistent cache (the index is the inverse of the rows, an
    invalid row is single and last) every sequence made of setPlaceholder,
    createUser, setData, removeUser, the slots onUserAdded, onUserModified,
    onUserRemoved and onCurrentUserChangeFailed, and the replies to
    addUser, modifyUser and removeUser runs to the end without a failed
    container assertion and ends in a consistent cache, provided each
    success reply of addUser in it is in time: its uid is already tracked,
    or the placeholder is still the last row and the identity lookup knows
    the uid. *)
Theorem actions_keep_consistent (acts : list Action) (s : UserModel) :
  consistent s →
  replies_in_time acts s →
  ∃ s', run_actions acts s = Some s' ∧ consistent s'.
Proof.
  revert s. induction acts as [|a acts IH]; intros s Hcons Htime.
  - by exists s.
  - destruct Htime as [Ha Hrest].
    destruct (run_action_consistent a s Hcons Ha) as (s1 & Hrun & Hcons1).
    destruct (IH s1 Hcons1 (Hrest s1 Hrun)) as (s' & Hrun' & Hcons').
    exists s'. cbn [run_actions]. by rewrite Hrun.
Qed.
End Consistency.

Lemma two_users_consistent : consistent two_users.
Proof.
  split; [exact two_users_index_inverse|].
  intros i x Hx Hv.
  destruct i as [|[|i]]; cbn in Hx; inversion Hx; subst x; discriminate Hv.
Qed.

Lemma actions_keep_consistent_witness :
  ∃ s', @run_actions sample_declarations
          [act_operation (op_setPlaceholder true);
           act_operation (op_userAddFinished sample_os (reply_value 1002%N));
           act_operation (op_onUserRemoved 1000)]
          two_users = Some s'
        ∧ consistent s'.
Proof.
  apply (@actions_keep_consistent sample_declarations _ two_users two_users_consistent).
  split; [exact I|]. intros s1 Hrun1.
  vm_compute in Hrun1. inversion Hrun1; subst s1. clear Hrun1.
  split.
  - right. split; [reflexivity|]. eexists. reflexivity.
  - intros s2 Hrun2. split; [exact I|]. intros s3 _. exact I.
Defined.

(** ** Naming the placeholder and renaming a committed user *)

Section Rename.
Context `{Declarations}.

Lemma insert_snoc {A} (l : list A) x y : <[length l := y]> (l ++ [x]) = l ++ [y].
Proof.
  pose proof (insert_app_r l [x] 0 y) as Hins.
  rewrite Nat.add_0_r in Hins. exact Hins.
Qed.

Lemma setData_renames (s : UserModel) idx value x :
  0 ≤ row idx < count (m_users s) → column idx = 0 →
  m_users s !! Z.to_nat (row idx) = Some x →
  toString value ≠ EmptyString → toString value ≠ name x →
  setData idx value NameRole s =
    Some (true,
          with_signal (dataChanged idx idx [NameRole])
            ((if isValid x
              then with_call {| call_method := "modifyUser";
                                call_args := [arg_uint (uid x);
                                              arg_string (toString value)];
                                call_finished := slot_userModifyFinished (row idx) |}
                   ∘ with_interface
              else id)
               (with_users (<[Z.to_nat (row idx) := setName (toString value) x]>
                              (m_users s)) s))).
Proof.
  intros Hr Hc Hx Hne Hdiff. unfold setData. unfold_M.
  rewrite setData_guard_false by done.
  destruct (QVector_at_Some (row idx) (m_users s) Hr) as (y & -> & Hy).
  assert (y = x) as -> by congruence.
  rewrite Z.eqb_refl. apply String.eqb_neq in Hne, Hdiff.
  rewrite Hne, Hdiff. cbn [orb].
  unfold QVector_set. rewrite in_range_true by done.
  cbn [isValid setName]. by destruct (isValid x).
Qed.

(** X10. On a cache without placeholder: requesting the placeholder, writing a
    non-empty name into its row and calling createUser appends one invalid
    row with that name, leaves the uid index alone and issues exactly one
    call, addUser(name); naming the placeholder issues no modifyUser. *)
Theorem placeholder_named_then_created (value : QVariant) (s : UserModel) :
  trailing_invalid (m_users s) = false →
  toString value ≠ EmptyString →
  let idx := {| row := count (m_users s); column := 0 |} in
  ∃ s', (setPlaceholder true ;; (setData idx value NameRole ;; createUser)) s
        = Some (tt, s')
        ∧ m_users s' = m_users s ++ [setName (toString value) UserInfo_placeholder]
        ∧ m_uidsToRows s' = m_uidsToRows s
        ∧ asyncCalls s' = asyncCalls s ++
            [{| call_method := "addUser";
                call_args := [arg_string (toString value)];
                call_finished := slot_userAddFinished |}]
        ∧ emitted s' = emitted s ++
            [beginInsertRows (count (m_users s)) (count (m_users s));
             endInsertRows; placeholderChanged;
             dataChanged idx idx [NameRole]].
Proof.
  intros Htr Hne idx. unfold mbind at 1. unfold M_bind.
  rewrite setPlaceholder_append by done.
  unfold mbind at 1. unfold M_bind.
  rewrite (setData_renames _ idx value UserInfo_placeholder).
  - cbn [isValid UserInfo_placeholder id].
    unfold createUser. unfold mbind, M_bind. rewrite placeholder_run.
    cbn [m_users with_signal with_users].
    replace (Z.to_nat (row idx)) with (length (m_users s))
      by (cbn; unfold count; lia).
    rewrite insert_snoc.
    rewrite trailing_invalid_snoc. cbn [isValid setName UserInfo_placeholder negb].
    unfold_M. cbn [m_users with_signal with_users]. rewrite last_snoc.
    cbn [name setName]. apply String.eqb_neq in Hne. rewrite Hne.
    eexists. split; [reflexivity|]. cbn. repeat split.
    by rewrite <- !app_assoc.
  - cbn. unfold count. rewrite length_app. cbn. lia.
  - done.
  - cbn. replace (Z.to_nat (count (m_users s))) with (length (m_users s))
      by (unfold count; lia).
    by rewrite lookup_app_r, Nat.sub_diag by lia.
  - done.
  - exact Hne.
Qed.

(** X11. The reply to modifyUser carries the row number bound when setData ran.
    When a committed user in front of the renamed row is removed by a
    userRemoved broadcast before an error reply arrives, the renamed user
    has moved up by one: the error reply emits userModifyFailed with the
    old row number, and the renamed user keeps the name that the daemon
    refused. *)
Theorem rename_failure_after_removal (os : OS) (s : UserModel) idx value x r0 x0 e :
  index_inverse s →
  column idx = 0 →
  0 ≤ r0 < row idx → row idx < count (m_users s) →
  m_users s !! Z.to_nat r0 = Some x0 → isValid x0 = true →
  m_users s !! Z.to_nat (row idx) = Some x → isValid x = true →
  toString value ≠ EmptyString → toString value ≠ name x →
  ∃ s', (setData idx value NameRole ;;
         (onUserRemoved (uid x0) ;;
          userModifyFinished os (reply_error e) (row idx))) s = Some (tt, s')
        ∧ m_uidsToRows s' !! uid x = Some (row idx - 1)
        ∧ m_users s' !! Z.to_nat (row idx - 1) = Some (setName (toString value) x)
        ∧ userModifyFailed (row idx) (getErrorType e) ∈ emitted s'.
Proof.
  intros Hinv Hc Hr0 Hr Hx0 Hv0 Hx Hv Hne Hdiff.
  assert (m_uidsToRows s !! uid x0 = Some r0) as Hi0.
  { apply Hinv. split; [lia|]. by exists x0. }
  assert (m_uidsToRows s !! uid x = Some (row idx)) as Hi.
  { apply Hinv. split; [lia|]. by exists x. }
  assert (uid x0 ≠ uid x) as Hneq.
  { intros Heq. rewrite Heq, Hi in Hi0. inversion Hi0. lia. }
  unfold mbind at 1. unfold M_bind.
  rewrite (setData_renames s idx value x) by (done || lia).
  rewrite Hv. unfold compose.
  unfold mbind at 1. unfold M_bind.
  rewrite (onUserRemoved_tracked (uid x0) r0) by exact Hi0.
  cbn [m_users m_uidsToRows with_signal with_call with_interface with_users].
  unfold QVector_remove.
  rewrite in_range_true by (rewrite count_insert; lia).
  unfold userModifyFinished. unfold mbind, M_bind, emit.
  match goal with
  | |- ∃ s', reset os (row idx) ?s2 = _ ∧ _ =>
      assert (Hrow : m_users s2 !! Z.to_nat (row idx - 1)
                     = Some (setName (toString value) x));
      [|assert (Hidx : m_uidsToRows s2 !! uid x = Some (row idx - 1));
        [|assert (Hsig : userModifyFailed (row idx) (getErrorType e) ∈ emitted s2);
          [|destruct (decide (0 ≤ row idx < count (m_users s2))) as [Hin|Hout]]]]
  end.
  - cbn. rewrite list_lookup_delete_ge by lia.
    replace (S (Z.to_nat (row idx - 1))) with (Z.to_nat (row idx)) by lia.
    apply list_lookup_insert_eq. unfold count in Hr. lia.
  - cbn. rewrite lookup_fmap, lookup_delete_ne, Hi by done. cbn.
    unfold renumber.
    by replace (r0 <? row idx) with true by (symmetry; apply Z.ltb_lt; lia).
  - cbn. apply elem_of_app. right. by apply list_elem_of_singleton.
  - destruct (QVector_at_Some _ _ Hin) as (y & _ & Hy).
    rewrite (reset_in_range os _ (row idx) y Hin Hy).
    eexists. split; [reflexivity|]. split; [exact Hidx|]. split.
    + cbn [m_users with_signal with_users].
      rewrite list_lookup_insert_ne by lia. exact Hrow.
    + cbn [emitted with_signal with_users].
      apply elem_of_app. by left.
  - rewrite reset_out_of_range by lia.
    eexists. split; [reflexivity|]. by repeat split.
Qed.
End Rename.

Lemma placeholder_named_then_created_witness :
  ∃ s', (setPlaceholder true ;;
         (@setData sample_declarations {| row := 2; column := 0 |}
            (QVariant_string "carol") 258 ;; createUser)) two_users = Some (tt, s')
        ∧ m_users s' = m_users two_users_and_carol
        ∧ asyncCalls s' =
            [{| call_method := "addUser"; call_args := [arg_string "carol"];
                call_finished := slot_userAddFinished |}].
Proof.
  assert (Hne : toString (QVariant_string "carol") ≠ EmptyString) by discriminate.
  destruct (@placeholder_named_then_created sample_declarations
              (QVariant_string "carol") two_users eq_refl Hne)
    as (s' & Hrun & Husers & _ & Hcalls & _).
  exists s'. split; [exact Hrun|]. split; [exact Husers | exact Hcalls].
Defined.

Lemma rename_failure_after_removal_witness :
  ∃ s', (@setData sample_declarations {| row := 2; column := 0 |}
           (QVariant_string "caroline") 258 ;;
         (onUserRemoved 1000 ;;
          @userModifyFinished sample_declarations sample_os
            (reply_error {| error_type := 1; error_name := "UserModifyFailed" |}) 2))
          three_users = Some (tt, s')
        ∧ m_uidsToRows s' !! 1002%N = Some 1
        ∧ name <$> m_users s' !! 1%nat = Some "caroline".
Proof.
  assert (Hne : toString (QVariant_string "caroline") ≠ EmptyString) by discriminate.
  assert (Hdiff : toString (QVariant_string "caroline") ≠ name (committed 1002 "carol"))
    by discriminate.
  assert (Hr0 : 0 ≤ 0 < row {| row := 2; column := 0 |}) by (cbn; lia).
  assert (Hr : row {| row := 2; column := 0 |} < count (m_users three_users))
    by (vm_compute; reflexivity).
  destruct (@rename_failure_after_removal sample_declarations sample_os three_users
              {| row := 2; column := 0 |} (QVariant_string "caroline")
              (committed 1002 "carol") 0 (committed 1000 "alice")
              {| error_type := 1; error_name := "UserModifyFailed" |}
              three_users_index_inverse eq_refl Hr0 Hr eq_refl eq_refl eq_refl
              eq_refl Hne Hdiff)
    as (s' & Hrun & Hidx & Hrow & _).
  exists s'. split; [exact Hrun|]. split; [exact Hidx|].
  change (Z.to_nat (row {| row := 2; column := 0 |} - 1)) with 1%nat in Hrow.
  by rewrite Hrow.
Defined.
